(** * Locator resolution and the wait/retry protocol of [PageBase]

    A shallow embedding of
    [automation_lib/generic_libraries/libraries/web/page_base.py]:
    the locator resolver [__get_by], the polling loop of Selenium's
    [WebDriverWait.until] that the page methods call, the [retry] decorator
    that wraps [click], [set_field], [get_attribute] and
    [find_child_element], and the presence helpers built on them.

    Python strings are [string]; the exceptions a method raises are values
    of [exn]; the browser behind the driver handle is an abstract state
    threaded through every call together with the wall clock and the log of
    the [sleep] calls. *)

From Stdlib Require Import String Ascii List Bool Arith NArith Lia.
From Stdlib Require Import DecimalString.
Import ListNotations.

Local Open Scope list_scope.
Local Open Scope string_scope.

(** ** Python string operations used by the resolver *)

Module PyStr.

(** [sub in s] for strings. *)
Fixpoint contains (sub s : string) : bool :=
  String.prefix sub s
  || match s with
     | EmptyString => false
     | String _ s' => contains sub s'
     end.

(** The scan of [s.split(sep)] for a non-empty [sep]: [cur] is the part
    read since the last separator, [skip] counts the characters of a
    separator that was just matched and is still to be passed over. *)
Fixpoint split_go (sep : string) (skip : nat) (cur s : string) : list string :=
  match s with
  | EmptyString => [cur]
  | String c s' =>
      match skip with
      | S k => split_go sep k cur s'
      | O =>
          if String.prefix sep s
          then cur :: split_go sep (String.length sep - 1) EmptyString s'
          else split_go sep 0 (cur ++ String c EmptyString) s'
      end
  end.

Definition split (sep s : string) : list string := split_go sep 0 EmptyString s.

(** [sep.join(parts)]. *)
Fixpoint join (sep : string) (parts : list string) : string :=
  match parts with
  | [] => EmptyString
  | [p] => p
  | p :: rest => p ++ sep ++ join sep rest
  end.

(** [str(n)] for a non-negative integer. *)
Definition of_N (n : N) : string := NilEmpty.string_of_uint (N.to_uint n).

End PyStr.

(** ** Exceptions *)

(** The exception classes that the page methods name, raise or catch.
    [Exception] is Python's base class, and every class here derives from it
    (an exception that derives from [BaseException] alone, such as
    [KeyboardInterrupt], is not one a Selenium call raises).
    [NotClickableException] is declared in [page_base.py]; the Selenium
    classes named are under [WebDriverException], and none of them derives
    from another of them.  [OtherException name webdriver] is a class that
    derives from none of the classes named here but [Exception], with its
    name and whether it derives from [WebDriverException];
    [Subclass name base] is a class declared as [class name(base)], which
    inherits from one class, as all of Selenium's exceptions do. *)
Inductive exn_class : Type :=
| Exception
| IndexError
| NotClickableException
| NoSuchElementException
| StaleElementReferenceException
| ElementNotVisibleException
| ElementNotSelectableException
| TimeoutException
| OtherException (name : string) (webdriver : bool)
| Subclass (name : string) (base : exn_class).

(** Selenium 3 declares
    [class InvalidSelectorException(NoSuchElementException)]. *)
Definition InvalidSelectorException : exn_class :=
  Subclass "InvalidSelectorException" NoSuchElementException.

(** [a is b] for classes. *)
Fixpoint exn_class_eqb (a b : exn_class) : bool :=
  match a, b with
  | Exception, Exception
  | IndexError, IndexError
  | NotClickableException, NotClickableException
  | NoSuchElementException, NoSuchElementException
  | StaleElementReferenceException, StaleElementReferenceException
  | ElementNotVisibleException, ElementNotVisibleException
  | ElementNotSelectableException, ElementNotSelectableException
  | TimeoutException, TimeoutException => true
  | OtherException n w, OtherException n' w' => String.eqb n n' && Bool.eqb w w'
  | Subclass n a', Subclass n' b' => String.eqb n n' && exn_class_eqb a' b'
  | _, _ => false
  end.

(** [issubclass(a, c)] for a class [c] other than [Exception]: [a] is [c] or
    the class it is declared from derives from [c]. *)
Fixpoint derives (a c : exn_class) : bool :=
  exn_class_eqb a c
  || match a with
     | Subclass _ base => derives base c
     | _ => false
     end.

(** The classes with a constructor of their own, and the ones of
    [OtherException]: a class that is declared from another one is none of
    them. *)
Definition named (c : exn_class) : Prop := forall n b, c <> Subclass n b.

(** An exception object: its class, the message it was built with, and the
    [screen] and [stacktrace] attributes of a [WebDriverException]. *)
Record exn : Type := mkExn {
  cls : exn_class;
  msg : string;
  screen : option string;
  stacktrace : option (list string)
}.

(** [cls(msg)] for a class without Selenium attributes; [raise cls] builds
    the object with no argument, whose text is empty. *)
Definition new_exn (c : exn_class) (m : string) : exn := mkExn c m None None.

Fixpoint is_webdriver_exception (c : exn_class) : bool :=
  match c with
  | NoSuchElementException | StaleElementReferenceException
  | ElementNotVisibleException | ElementNotSelectableException
  | TimeoutException => true
  | OtherException _ w => w
  | Subclass _ base => is_webdriver_exception base
  | Exception | IndexError | NotClickableException => false
  end.

(** [str(e)]: [WebDriverException.__str__] prints ["Message: ..."], a note
    when a screenshot is attached and the stack trace; other exceptions
    print their message. *)
Definition newline : string := String (ascii_of_nat 10) EmptyString.

Definition str_of_exn (e : exn) : string :=
  if is_webdriver_exception (cls e) then
    "Message: " ++ msg e ++ newline
    ++ (match screen e with
        | Some _ => "Screenshot: available via screen" ++ newline
        | None => EmptyString
        end)
    ++ (match stacktrace e with
        | Some st => "Stacktrace:" ++ newline ++ PyStr.join newline st
        | None => EmptyString
        end)
  else msg e.

(** [isinstance(e, c)]: everything derives from [Exception]; for another
    class, the class of [e] is [c] or one of its subclasses. *)
Definition isinstance (e : exn) (c : exn_class) : bool :=
  match c with
  | Exception => true
  | _ => derives (cls e) c
  end.

(** [except (c1, c2, ...)]. *)
Definition caught_by (cs : list exn_class) (e : exn) : bool :=
  existsb (isinstance e) cs.

(** ** Locator strategies *)

(** [class Strategy(Enum)]. *)
Inductive Strategy : Type := XPATH | ID | CSS | TAGNAME.

Definition Strategy_value (s : Strategy) : string :=
  match s with
  | XPATH => "xpath"
  | ID => "id"
  | CSS => "css"
  | TAGNAME => "tag name"
  end.

(** Selenium's [By] constants. *)
Module By.
Inductive t : Type :=
| ID | XPATH | LINK_TEXT | PARTIAL_LINK_TEXT | NAME | TAG_NAME | CLASS_NAME
| CSS_SELECTOR.

Definition value (b : t) : string :=
  match b with
  | ID => "id"
  | XPATH => "xpath"
  | LINK_TEXT => "link text"
  | PARTIAL_LINK_TEXT => "partial link text"
  | NAME => "name"
  | TAG_NAME => "tag name"
  | CLASS_NAME => "class name"
  | CSS_SELECTOR => "css selector"
  end.
End By.

(** The [By] constant each strategy token resolves to. *)
Definition by_of (s : Strategy) : By.t :=
  match s with
  | XPATH => By.XPATH
  | ID => By.ID
  | CSS => By.CSS_SELECTOR
  | TAGNAME => By.TAG_NAME
  end.

Definition SEP : string := "@@".

(** [parts[i]]: an index out of range raises [IndexError]. *)
Definition index (parts : list string) (i : nat) : exn + string :=
  match nth_error parts i with
  | Some p => inr p
  | None => inl (new_exn IndexError "list index out of range")
  end.

(** [PageBase.__get_by]: the error is the left injection, the [(By, value)]
    pair the right one. *)
Definition get_by (locator_with_strategy : string) : exn + (By.t * string) :=
  let locator_with_strategy :=
    if negb (PyStr.contains SEP locator_with_strategy)
    then Strategy_value ID ++ SEP ++ locator_with_strategy
    else locator_with_strategy in
  let strategy_and_locator := PyStr.split SEP locator_with_strategy in
  match index strategy_and_locator 0 with
  | inl e => inl e
  | inr strategy =>
      match index strategy_and_locator 1 with
      | inl e => inl e
      | inr locator =>
          if String.eqb strategy (Strategy_value XPATH) then inr (By.XPATH, locator)
          else if String.eqb strategy (Strategy_value ID) then inr (By.ID, locator)
          else if String.eqb strategy (Strategy_value CSS) then inr (By.CSS_SELECTOR, locator)
          else if String.eqb strategy (Strategy_value TAGNAME) then inr (By.TAG_NAME, locator)
          else inl (new_exn Exception
                     (" Incorrect locator specified . Locator has to be either xpath,id,css,tagname -->"
                      ++ locator_with_strategy))
      end
  end.

(** A string without the character ['@']: the strategy tokens are such. *)
Fixpoint no_at (s : string) : bool :=
  match s with
  | EmptyString => true
  | String c s' => negb (Ascii.eqb c "@") && no_at s'
  end.


(** ** The browser behind the driver handle *)

(** What an element is looked up in: the page ([WebDriverWait(self._driver,
    ...)]) or an element ([WebDriverWait(element, ...)]). *)
Inductive search_context (WebElement : Type) : Type :=
| Driver
| Within (element : WebElement).
Arguments Driver {WebElement}.
Arguments Within {WebElement} element.

(** The Selenium calls of the page class. A call reads and changes the state
    [W] of the browser session, returns a value or raises, and takes some
    time, in milliseconds. *)
Class Browser : Type := {
  W : Type;
  WebElement : Type;
  ext (A : Type) : Type := W -> (exn + A) * W * N;
  (** [driver.find_element(by, value)] and [element.find_element(by, value)] *)
  find_element_in : search_context WebElement -> By.t -> string -> ext WebElement;
  (** [element.click()] *)
  element_click : WebElement -> ext unit;
  (** [element.clear()] *)
  element_clear : WebElement -> ext unit;
  (** [element.send_keys(key, ...)] *)
  element_send_keys : WebElement -> list string -> ext unit;
  (** [element.get_attribute(name)]; [None] is Python's [None] *)
  element_get_attribute : WebElement -> string -> ext (option string);
  (** [element.is_displayed()] *)
  element_is_displayed : WebElement -> ext bool;
  (** [str(element)] *)
  element_str : WebElement -> string
}.

(** ** Page methods as state transformers *)

(** How a call ends. [OutOfFuel] stands for a polling loop that was cut
    before it ended; [until_total] shows that no loop is. *)
Inductive outcome (A : Type) : Type :=
| Return (a : A)
| Raise (e : exn)
| OutOfFuel.
Arguments Return {A} a.
Arguments Raise {A} e.
Arguments OutOfFuel {A}.

Section Engine.
Context {B : Browser}.

(** The state a page method runs in: the browser, the clock
    ([time.time()], in milliseconds) and the arguments of the [sleep]
    calls made so far, in milliseconds, oldest first. *)
Record state : Type := mkState {
  browser : W;
  clock : N;
  sleeps : list N
}.

Definition M (A : Type) : Type := state -> outcome A * state.

Definition ret {A : Type} (a : A) : M A := fun s => (Return a, s).

Definition raise {A : Type} (e : exn) : M A := fun s => (Raise e, s).

Definition bind {A C : Type} (m : M A) (k : A -> M C) : M C :=
  fun s =>
    match m s with
    | (Return a, s1) => k a s1
    | (Raise e, s1) => (Raise e, s1)
    | (OutOfFuel, s1) => (OutOfFuel, s1)
    end.

(** A Selenium call: the browser moves on and the clock advances by the
    time the call took. *)
Definition call {A : Type} (op : ext A) : M A :=
  fun s =>
    let '(r, w, dt) := op (browser s) in
    let s1 := mkState w (clock s + dt) (sleeps s) in
    match r with
    | inr a => (Return a, s1)
    | inl e => (Raise e, s1)
    end.

(** A pure computation that may raise. *)
Definition pure {A : Type} (r : exn + A) : M A :=
  match r with
  | inr a => ret a
  | inl e => raise e
  end.

(** [time.sleep(ms / 1000)] *)
Definition do_sleep (ms : N) (s : state) : state :=
  mkState (browser s) (clock s + ms) (sleeps s ++ [ms]).

Definition sleep (ms : N) : M unit := fun s => (Return tt, do_sleep ms s).

(** The handler of the first [except] clause that names a class of [e]. *)
Fixpoint handler_for {A : Type} (clauses : list (list exn_class * (exn -> M A)))
    (e : exn) : option (exn -> M A) :=
  match clauses with
  | [] => None
  | (classes, h) :: rest =>
      if caught_by classes e then Some h else handler_for rest e
  end.

(** [try: m  except classes1 as e: h1 e  except classes2 as e: h2 e ...] *)
Definition try_except {A : Type} (m : M A)
    (clauses : list (list exn_class * (exn -> M A))) : M A :=
  fun s =>
    match m s with
    | (Raise e, s1) =>
        match handler_for clauses e with
        | Some h => h e s1
        | None => (Raise e, s1)
        end
    | other => other
    end.

(** A method ends from every state: no loop in it is cut. *)
Definition total {A : Type} (m : M A) : Prop :=
  forall s, fst (m s) <> OutOfFuel.

End Engine.

Declare Scope page_scope.
Notation "x <- m ;; k" := (bind m (fun x => k))
  (at level 61, m at next level, right associativity) : page_scope.
Notation "m ;;; k" := (bind m (fun _ => k))
  (at level 61, right associativity) : page_scope.
Local Open Scope page_scope.

(** ** [WebDriverWait] and the expected conditions *)

Section Wait.
Context {B : Browser}.

(** [POLL_FREQUENCY = 0.5] seconds. *)
Definition POLL_FREQUENCY : N := 500.

(** [IGNORED_EXCEPTIONS = (NoSuchElementException,)] *)
Definition IGNORED_EXCEPTIONS : list exn_class := [NoSuchElementException].

(** [WebDriverWait(driver, timeout, ignored_exceptions=...)]: the timeout
    is in seconds; the classes given are added to the default one. *)
Record WebDriverWait : Type := mkWait {
  wait_driver : search_context WebElement;
  wait_timeout : N;
  wait_ignored : list exn_class
}.

Definition new_wait (driver : search_context WebElement) (timeout : N)
    (ignored_exceptions : list exn_class) : WebDriverWait :=
  mkWait driver timeout (IGNORED_EXCEPTIONS ++ ignored_exceptions)%list.

(** The loop of [WebDriverWait.until], written after Selenium 3, the
    library the page class imports (Selenium is not part of the
    repository): call the condition; a truthy value is returned, an
    ignored exception leaves its [screen] and [stacktrace] behind, any other
    exception leaves the loop; then sleep for the poll interval and stop
    with [TimeoutException] once the clock is past [end_time]. A condition
    answers [Some v] for a truthy value and [None] for a falsy one. The
    clock stands for [time.time()] in whole milliseconds. [fuel] bounds the
    polls; [until] gives as many as fit before the deadline. *)
Fixpoint until_loop {V : Type} (fuel : nat) (ignored : list exn_class)
    (method : ext (option V)) (message : string) (end_time : N)
    (scr : option string) (st : option (list string)) (s : state)
    : outcome V * state :=
  match fuel with
  | O => (OutOfFuel, s)
  | S fuel' =>
      let '(r, w, dt) := method (browser s) in
      let s1 := mkState w (clock s + dt) (sleeps s) in
      let again scr' st' :=
        let s2 := do_sleep POLL_FREQUENCY s1 in
        if (end_time <? clock s2)%N
        then (Raise (mkExn TimeoutException message scr' st'), s2)
        else until_loop fuel' ignored method message end_time scr' st' s2 in
      match r with
      | inr (Some v) => (Return v, s1)
      | inr None => again scr st
      | inl e =>
          if caught_by ignored e
          then again (screen e) (stacktrace e)
          else (Raise e, s1)
      end
  end.

(** The polls a wait of [timeout] seconds can make: one at the start and
    one after each sleep that ends by the deadline. *)
Definition max_polls (timeout : N) : nat :=
  S (N.to_nat (1000 * timeout / POLL_FREQUENCY)).

(** [wait.until(method, message)]; the condition is applied to the
    driver of the wait. *)
Definition until {V : Type} (wait : WebDriverWait)
    (method : search_context WebElement -> ext (option V)) (message : string) : M V :=
  fun s =>
    until_loop (max_polls (wait_timeout wait)) (wait_ignored wait)
      (method (wait_driver wait)) message
      (clock s + 1000 * wait_timeout wait) None None s.

(** *** The polls of a wait, one by one

    What a wait meets is told poll by poll: the state a poll starts in, what
    it answers, and the state it leaves. These say what the browser does
    during a wait; the loop above is what the theorems are about. *)

(** What a poll of [method] that starts in [s] answers. *)
Definition poll_result {V : Type} (method : ext (option V)) (s : state)
    : exn + option V :=
  fst (fst (method (browser s))).

(** The state a poll of [method] that starts in [s] ends in. *)
Definition after_poll {V : Type} (method : ext (option V)) (s : state) : state :=
  mkState (snd (fst (method (browser s)))) (clock s + snd (method (browser s)))
    (sleeps s).

(** The state poll [k] starts in, poll 0 being the one the wait begins
    with in [s], when each poll before it was followed by the sleep of the
    poll interval. *)
Definition poll_start {V : Type} (method : ext (option V)) (k : nat) (s : state)
    : state :=
  Nat.iter k (fun s0 => do_sleep POLL_FREQUENCY (after_poll method s0)) s.

(** A poll after which a wait that ignores [ignored] goes on: a falsy
    value, or an exception of an ignored class. *)
Definition goes_on {V : Type} (ignored : list exn_class) (r : exn + option V)
    : bool :=
  match r with
  | inr (Some _) => false
  | inr None => true
  | inl e => caught_by ignored e
  end.

(** The polls before poll [n] all go on, and the sleep after each of them
    ends by the deadline: the wait is still on when poll [n] starts. *)
Definition waiting {V : Type} (ignored : list exn_class) (method : ext (option V))
    (deadline : N) (n : nat) (s : state) : Prop :=
  forall k, k < n ->
    goes_on ignored (poll_result method (poll_start method k s)) = true
    /\ (clock (poll_start method (S k) s) <= deadline)%N.

(** [EC.presence_of_element_located(locator)]: the element that
    [find_element] returns, which is truthy, or the exception it raises. *)
Definition presence_of_element_located (locator : By.t * string)
    (driver : search_context WebElement) : ext (option WebElement) :=
  fun w =>
    match find_element_in driver (fst locator) (snd locator) w with
    | (inr element, w1, dt) => (inr (Some element), w1, dt)
    | (inl e, w1, dt) => (inl e, w1, dt)
    end.

(** [EC.visibility_of_element_located(locator)]: the element when it is
    found and displayed, [False] when it is not displayed or when the
    lookup or [is_displayed] raises [StaleElementReferenceException]. *)
Definition visibility_of_element_located (locator : By.t * string)
    (driver : search_context WebElement) : ext (option WebElement) :=
  fun w =>
    let stale_is_false (e : exn) (w1 : W) (dt : N) : (exn + option WebElement) * W * N :=
      if isinstance e StaleElementReferenceException
      then (inr None, w1, dt) else (inl e, w1, dt) in
    match find_element_in driver (fst locator) (snd locator) w with
    | (inr element, w1, dt1) =>
        match element_is_displayed element w1 with
        | (inr shown, w2, dt2) =>
            (inr (if shown then Some element else None), w2, (dt1 + dt2)%N)
        | (inl e, w2, dt2) => stale_is_false e w2 (dt1 + dt2)%N
        end
    | (inl e, w1, dt1) => stale_is_false e w1 dt1
    end.

(** ** The [retry] decorator *)

(** The loop of [retry(exceptions, tries, delay)] around a call [f()],
    written after [__retry_internal] of the [retry] package that the page
    class imports (the package is not part of the repository), entered with
    [_tries = S tries_left]: the result of [f] is returned; an exception of
    a listed class is raised again when it was the last try, and otherwise
    followed by [time.sleep(delay)] and the next try; any other exception
    is not caught. The class passes no [backoff], [jitter] or [max_delay],
    so the delay stays as given. *)
Fixpoint retry_internal {A : Type} (f : M A) (exceptions : list exn_class)
    (tries_left : nat) (delay : N) (s : state) : outcome A * state :=
  match f s with
  | (Raise e, s1) =>
      if caught_by exceptions e then
        match tries_left with
        | O => (Raise e, s1)
        | S n => retry_internal f exceptions n delay (do_sleep delay s1)
        end
      else (Raise e, s1)
  | other => other
  end.

(** The calls of [f] that the loop makes. *)
Fixpoint retry_attempts {A : Type} (f : M A) (exceptions : list exn_class)
    (tries_left : nat) (delay : N) (s : state) : nat :=
  match f s with
  | (Raise e, s1) =>
      if caught_by exceptions e then
        match tries_left with
        | O => 1
        | S n => S (retry_attempts f exceptions n delay (do_sleep delay s1))
        end
      else 1
  | _ => 1
  end.

(** [@retry(exceptions, tries=tries, delay=delay)] with a positive number
    of tries; the delay is in milliseconds. *)
Definition retry {A : Type} (exceptions : list exn_class) (tries : positive)
    (delay : N) (f : M A) : M A :=
  retry_internal f exceptions (Pos.to_nat tries - 1) delay.

End Wait.


(** ** The methods of [PageBase] *)

Section PageBase.
Context {B : Browser}.

(** What callers pass as [locator]: a string, a [WebElement], or another
    object, kept as its text. *)
Inductive locator_arg : Type :=
| LocStr (locator : string)
| LocElement (element : WebElement)
| LocOther (text : string).

(** [Keys.CONTROL], the code point U+E009, as UTF-8. *)
Definition Keys_CONTROL : string :=
  String (ascii_of_nat 238) (String (ascii_of_nat 128) (String (ascii_of_nat 137) "")).

(** The default of [timeout] in [find_element] and [find_child_element]. *)
Definition FIND_TIMEOUT : N := 5.

(** The arguments of every [@retry] in the class: [tries=5, delay=2]. *)
Definition RETRY_TRIES : positive := 5.
Definition RETRY_DELAY : N := 2000.

(** The message [find_element] gives to the wait:
    ["Timed out after {} seconds while waiting to find the element with
    locator {} ".format(timeout, locator)]. *)
Definition find_message (locator : string) (timeout : N) : string :=
  "Timed out after " ++ PyStr.of_N timeout
  ++ " seconds while waiting to find the element with locator " ++ locator ++ " ".

(** The exception [find_element] raises in its [except] clause:
    [Exception("Could Not Find Element with locator {} due to error {} "
    .format(locator, str(e)))]. *)
Definition find_error (locator : string) (e : exn) : exn :=
  new_exn Exception
    ("Could Not Find Element with locator " ++ locator ++ " due to error "
     ++ str_of_exn e ++ " ").

(** [PageBase.find_element] *)
Definition find_element (locator : string) (timeout : N) : M WebElement :=
  try_except
    (by_ <- pure (get_by locator) ;;
     until (new_wait Driver timeout []) (presence_of_element_located by_)
       (find_message locator timeout))
    [([Exception], fun e => raise (find_error locator e))].

(** The body of [PageBase.click]. *)
Definition click_body (locator : locator_arg) : M unit :=
  element <- match locator with
             | LocStr l => (e <- find_element l FIND_TIMEOUT ;; ret (Some e))
             | LocElement e => ret (Some e)
             | LocOther _ => ret None
             end ;;
  match element with
  | Some element =>
      try_except (call (element_click element))
        [([Exception],
          fun e => if PyStr.contains "is not clickable" (str_of_exn e)
                   then raise (new_exn NotClickableException "")
                   else raise e)]
  | None =>
      raise (new_exn Exception
               ("Could not click on the element with locator "
                ++ match locator with
                   | LocStr l => l
                   | LocElement e => element_str e
                   | LocOther text => text
                   end))
  end.

(** What the [except] clause of [click] raises when [element.click()]
    raised [e]. *)
Definition click_error (e : exn) : exn :=
  if PyStr.contains "is not clickable" (str_of_exn e)
  then new_exn NotClickableException "" else e.

Definition CLICK_RETRIED : list exn_class :=
  [StaleElementReferenceException; ElementNotVisibleException; NotClickableException].

(** [PageBase.click], under its decorator. *)
Definition click (locator : locator_arg) : M unit :=
  retry CLICK_RETRIED RETRY_TRIES RETRY_DELAY (click_body locator).

(** The body of [PageBase.set_field]. *)
Definition set_field_body (locator element_value : string) : M WebElement :=
  webelement <- find_element locator FIND_TIMEOUT ;;
  (try_except
     (call (element_send_keys webelement [Keys_CONTROL; "a"]) ;;;
      call (element_clear webelement) ;;;
      sleep 1000 ;;;
      call (element_click webelement) ;;;
      call (element_send_keys webelement [element_value]))
     [([Exception],
       fun e => raise (new_exn Exception
                  ("Could not write on the the element " ++ element_str webelement
                   ++ " due to " ++ str_of_exn e)))]) ;;;
  ret webelement.

(** [PageBase.set_field], under its decorator. *)
Definition set_field (locator element_value : string) : M WebElement :=
  retry [StaleElementReferenceException] RETRY_TRIES RETRY_DELAY
    (set_field_body locator element_value).

(** The body of [PageBase.get_attribute]; the locator is a [WebElement]
    or a locator string. *)
Definition get_attribute_body (locator : WebElement + string) (attribute : string)
    : M (option string) :=
  match locator with
  | inl element => call (element_get_attribute element attribute)
  | inr l =>
      element <- find_element l FIND_TIMEOUT ;;
      call (element_get_attribute element attribute)
  end.

(** [PageBase.get_attribute], under its decorator. *)
Definition get_attribute (locator : WebElement + string) (attribute : string)
    : M (option string) :=
  retry [StaleElementReferenceException] RETRY_TRIES RETRY_DELAY
    (get_attribute_body locator attribute).

(** [PageBase.find_child_element], under its decorator. *)
Definition find_child_element (element : WebElement) (locator : string) (timeout : N)
    : M WebElement :=
  retry [StaleElementReferenceException] RETRY_TRIES RETRY_DELAY
    (by_ <- pure (get_by locator) ;;
     until (new_wait (Within element) timeout []) (presence_of_element_located by_) "").

(** [PageBase.is_child_element_present] *)
Definition is_child_element_present (element : WebElement) (locator : string)
    (timeout : N) : M bool :=
  try_except (find_child_element element locator timeout ;;; ret true)
    [([Exception], fun _ => ret false)].

(** [PageBase.is_element_displayed] *)
Definition is_element_displayed (locator : string) : M bool :=
  element <- try_except (e <- find_element locator FIND_TIMEOUT ;; ret (Some e))
               [([Exception], fun _ => ret None)] ;;
  match element with
  | None => ret false
  | Some element => call (element_is_displayed element)
  end.

(** The exception [is_element_present] raises in its second [except]
    clause. *)
Definition presence_error (locator : string) (e : exn) : exn :=
  new_exn Exception
    ("Could Not Verify Element Presence " ++ locator ++ " due to error "
     ++ str_of_exn e).

(** [PageBase.is_element_present] *)
Definition is_element_present (locator : string) (timeout : N) : M bool :=
  try_except
    (by_ <- pure (get_by locator) ;;
     until (new_wait Driver timeout []) (presence_of_element_located by_) "" ;;;
     ret true)
    [([TimeoutException], fun _ => ret false);
     ([Exception], fun e => raise (presence_error locator e))].

(** [PageBase.wait_till_element_is_present] *)
Definition wait_till_element_is_present (locator : string) (timeout : N)
    : M WebElement :=
  try_except
    (by_ <- pure (get_by locator) ;;
     until (new_wait Driver timeout []) (presence_of_element_located by_) "")
    [([Exception], fun e => raise e)].

Definition VISIBLE_IGNORED : list exn_class :=
  [NoSuchElementException; ElementNotVisibleException;
   ElementNotSelectableException; StaleElementReferenceException].

(** [PageBase.wait_till_element_is_visible] *)
Definition wait_till_element_is_visible (locator : string) (timeout : N)
    : M WebElement :=
  try_except
    (by_ <- pure (get_by locator) ;;
     until (new_wait Driver timeout VISIBLE_IGNORED)
       (visibility_of_element_located by_) "")
    [([Exception], fun e => raise e)].

(** The state poll [k] of a wait for the presence of [by_] on the page
    starts in, and of a wait for its visibility. *)
Definition presence_poll (by_ : By.t * string) (k : nat) (s : state) : state :=
  poll_start (presence_of_element_located by_ Driver) k s.


(** How a wait on [method] with the given deadline can end: with a value
    that a poll returned, with [TimeoutException] once the clock is past
    the deadline, or with an exception of a poll that the wait does not
    ignore. *)
Definition until_ends {V : Type} (ignored : list exn_class)
    (method : ext (option V)) (message : string) (deadline : N)
    (o : outcome V) (s' : state) : Prop :=
  (exists v w dt, o = Return v /\ method w = (inr (Some v), browser s', dt))
  \/ (exists scr st, o = Raise (mkExn TimeoutException message scr st)
                     /\ (deadline < clock s')%N)
  \/ (exists e w dt, o = Raise e /\ method w = (inl e, browser s', dt)
                     /\ caught_by ignored e = false).

End PageBase.

(** ** A scripted browser *)

(** A browser whose answers are fixed in advance: its state is the number
    of calls it has served, each call answers from that number and takes
    [call_time] milliseconds; elements are numbered. *)
Record script : Type := mkScript {
  on_find : By.t -> string -> nat -> exn + nat;
  on_click : nat -> exn + unit;
  on_keys : nat -> exn + unit;
  on_attribute : nat -> exn + option string;
  on_displayed : nat -> exn + bool;
  call_time : N
}.

Definition scripted (sc : script) : Browser := {|
  W := nat;
  WebElement := nat;
  find_element_in := fun _ by_ value n => (on_find sc by_ value n, S n, call_time sc);
  element_click := fun _ n => (on_click sc n, S n, call_time sc);
  element_clear := fun _ n => (on_keys sc n, S n, call_time sc);
  element_send_keys := fun _ _ n => (on_keys sc n, S n, call_time sc);
  element_get_attribute := fun _ _ n => (on_attribute sc n, S n, call_time sc);
  element_is_displayed := fun _ n => (on_displayed sc n, S n, call_time sc);
  element_str := fun e => "<WebElement " ++ PyStr.of_N (N.of_nat e) ++ ">"
|}.

(** The errors the scripts raise. *)
Definition not_clickable_error : exn :=
  mkExn (OtherException "ElementClickInterceptedException" true)
    "element click intercepted: Element <button> is not clickable at point (10, 20)"
    None None.

Definition stale_error : exn :=
  mkExn StaleElementReferenceException
    "stale element reference: element is not attached to the page document"
    None None.

Definition no_such_element_error : exn :=
  mkExn NoSuchElementException "no such element: Unable to locate element" None None.

Definition session_error : exn :=
  mkExn (OtherException "InvalidSessionIdException" true) "invalid session id" None None.

Definition invalid_selector_error : exn :=
  mkExn InvalidSelectorException "invalid selector: An invalid or illegal selector was specified"
    None None.

(** Every call succeeds: lookups find element 7, which is displayed. *)
Definition all_fine : script :=
  mkScript (fun _ _ _ => inr 7) (fun _ => inr tt) (fun _ => inr tt)
    (fun _ => inr (Some "value")) (fun _ => inr true) 100.

(** [element.click()] is refused as not clickable by the first two calls the
    browser serves. *)
Definition click_blocked_twice : script :=
  mkScript (fun _ _ _ => inr 7)
    (fun n => if Nat.ltb n 2 then inl not_clickable_error else inr tt)
    (fun _ => inr tt) (fun _ => inr (Some "value")) (fun _ => inr true) 100.

(** The first call the browser serves finds the element stale, whatever the
    call is; later calls succeed. *)
Definition stale_once : script :=
  mkScript (fun _ _ n => if Nat.ltb n 1 then inl stale_error else inr 7)
    (fun n => if Nat.ltb n 1 then inl stale_error else inr tt)
    (fun n => if Nat.ltb n 1 then inl stale_error else inr tt)
    (fun n => if Nat.ltb n 1 then inl stale_error else inr (Some "value"))
    (fun n => if Nat.ltb n 1 then inl stale_error else inr true) 100.

(** Lookups succeed; the second call the browser serves, the first one on
    the element that was found, finds it stale. *)
Definition stale_after_lookup : script :=
  mkScript (fun _ _ _ => inr 7)
    (fun n => if Nat.eqb n 1 then inl stale_error else inr tt)
    (fun n => if Nat.eqb n 1 then inl stale_error else inr tt)
    (fun n => if Nat.eqb n 1 then inl stale_error else inr (Some "value"))
    (fun n => if Nat.eqb n 1 then inl stale_error else inr true) 100.

(** The element is never there. *)
Definition never_found : script :=
  mkScript (fun _ _ _ => inl no_such_element_error) (fun _ => inr tt) (fun _ => inr tt)
    (fun _ => inr (Some "value")) (fun _ => inr true) 100.

(** The element appears at the third poll. *)
Definition found_at_third_poll : script :=
  mkScript (fun _ _ n => if Nat.ltb n 2 then inl no_such_element_error else inr 7)
    (fun _ => inr tt) (fun _ => inr tt)
    (fun _ => inr (Some "value")) (fun _ => inr true) 100.

(** The first two lookups raise [InvalidSelectorException], the third finds
    the element. *)
Definition invalid_selector_twice : script :=
  mkScript (fun _ _ n => if Nat.ltb n 2 then inl invalid_selector_error else inr 7)
    (fun _ => inr tt) (fun _ => inr tt)
    (fun _ => inr (Some "value")) (fun _ => inr true) 100.

(** Every call fails with an error that no method lists. *)
Definition broken_session : script :=
  mkScript (fun _ _ _ => inl session_error) (fun _ => inl session_error)
    (fun _ => inl session_error) (fun _ => inl session_error)
    (fun _ => inl session_error) 100.

(** A state of a scripted run: the calls served, the clock, the sleeps. *)
Definition scripted_state (sc : script) (served : nat) (now : N) (slept : list N)
    : @state (scripted sc) :=
  @mkState (scripted sc) served now slept.

(** The state a scripted run starts in. *)
Definition start (sc : script) : @state (scripted sc) := scripted_state sc 0 0 [].


(** ** A predicate on the scan of a split *)

(** No separator starts inside [cur], the part that [split_go] is reading,
    when [s] is what is left to read. *)
Definition clean_part (sep cur s : string) : Prop :=
  forall a b, cur = a ++ b -> b <> "" -> String.prefix sep (b ++ s) = false.

(** ** The collection hook of [conftest.py] *)

Module Conftest.

Section Hook.
(** The collected tests; [str_item] is [str(item)]. *)
Variable Item : Type.
Variable str_item : Item -> string.

(** What the hook reads from [config]: [config.option.seq] and
    [config.getoption('customseq')]. *)
Record config : Type := mkConfig {
  option_seq : bool;
  customseq : string
}.

(** [for item in items: if s in str(item): selected_items.append(item)] *)
Fixpoint select_name (s : string) (items selected_items : list Item) : list Item :=
  match items with
  | [] => selected_items
  | item :: rest =>
      select_name s rest
        (if PyStr.contains s (str_item item)
         then (selected_items ++ [item])%list
         else selected_items)
  end.

(** [for s in seq: ...] *)
Fixpoint select_sequence (seq : list string) (items selected_items : list Item)
    : list Item :=
  match seq with
  | [] => selected_items
  | s :: rest => select_sequence rest items (select_name s items selected_items)
  end.

(** [pytest_collection_modifyitems]: the list that [items] holds when the
    hook returns (it assigns [items[:]] in place); the two [print] calls are
    left out. *)
Definition pytest_collection_modifyitems (cfg : config) (items : list Item)
    : list Item :=
  if option_seq cfg then
    let seq := PyStr.split "," (customseq cfg) in
    select_sequence seq items []
  else items.

(** The names of a sequence that occur in the text of an item. *)
Definition names_matching (seq : list string) (item : Item) : list string :=
  filter (fun s => PyStr.contains s (str_item item)) seq.

End Hook.

(** A collected test function, as pytest prints it. *)
Definition function_item (name : string) : string := "<Function " ++ name ++ ">".

End Conftest.


(** ** More calls of the browser and more methods of [PageBase] *)

(** The Selenium calls that the methods below add to those of [Browser]. *)
Class BrowserMore (B : Browser) : Type := {
  (** [driver.find_elements(by, value)] and [element.find_elements(by, value)] *)
  find_elements_in : search_context WebElement -> By.t -> string -> ext (list WebElement);
  (** [element.find_elements_by_tag_name(name)] *)
  element_find_elements_by_tag_name : WebElement -> string -> ext (list WebElement);
  (** [element.text] *)
  element_text : WebElement -> ext string;
  (** [driver.execute_script(script, element)]; the result is not used *)
  execute_script : string -> list WebElement -> ext unit
}.

(** [l] is [found] with some elements left out, in the same order. *)
Inductive subsequence {A : Type} : list A -> list A -> Prop :=
| subsequence_nil : subsequence [] []
| subsequence_keep (x : A) (l found : list A) :
    subsequence l found -> subsequence (x :: l) (x :: found)
| subsequence_drop (x : A) (l found : list A) :
    subsequence l found -> subsequence l (x :: found).

Section PageBaseMore.
Context {B : Browser} {BM : BrowserMore B}.

(** The exception [find_elements] raises in its [except] clause. *)
Definition find_elements_error (locator : string) (e : exn) : exn :=
  new_exn Exception
    ("Could Not Find Elements with locator " ++ locator ++ " due to error "
     ++ str_of_exn e).

(** [PageBase.find_elements] *)
Definition find_elements (locator : string) : M (list WebElement) :=
  try_except
    (by_ <- pure (get_by locator) ;;
     call (find_elements_in Driver (fst by_) (snd by_)))
    [([Exception], fun e => raise (find_elements_error locator e))].

(** [[element for element in elements if element.is_displayed()]] *)
Fixpoint keep_displayed (elements : list WebElement) : M (list WebElement) :=
  match elements with
  | [] => ret []
  | element :: rest =>
      shown <- call (element_is_displayed element) ;;
      kept <- keep_displayed rest ;;
      ret (if shown then element :: kept else kept)
  end.

(** [PageBase.find_visible_elements] *)
Definition find_visible_elements (locator : string) : M (list WebElement) :=
  by_ <- pure (get_by locator) ;;
  elements <- call (find_elements_in Driver (fst by_) (snd by_)) ;;
  keep_displayed elements.

(** [PageBase.find_child_elements] *)
Definition find_child_elements (element : WebElement) (locator : string)
    : M (list WebElement) :=
  by_ <- pure (get_by locator) ;;
  call (find_elements_in (Within element) (fst by_) (snd by_)).

(** What callers pass to [javascript_click]: a string, a [WebElement], or
    an object of another type, kept as the name of its type ([NoneType],
    [tuple], [int], ...): a type that has no addition with [str]. *)
Inductive js_locator : Type :=
| JsStr (locator : string)
| JsElement (element : WebElement)
| JsOther (type_name : string).

Definition dquote : string := String (ascii_of_nat 34) "".

(** The error of [str + x] for an [x] that is not a string (the text is
    that of CPython 3.7 and later). *)
Definition concat_type_error (type_name : string) : exn :=
  new_exn (OtherException "TypeError" false)
    ("can only concatenate str (not " ++ dquote ++ type_name ++ dquote ++ ") to str").

(** [PageBase.javascript_click]: the message of the last [raise] is built
    with [+], which raises before the [Exception] exists when the locator
    is not a string. *)
Definition javascript_click (locator : js_locator) : M unit :=
  element <- match locator with
             | JsStr l => (e <- find_element l FIND_TIMEOUT ;; ret (Some e))
             | JsElement e => ret (Some e)
             | JsOther _ => ret None
             end ;;
  match element with
  | Some element => call (execute_script "arguments[0].click();" [element])
  | None =>
      match locator with
      | JsStr l => raise (new_exn Exception ("Could not click on locator " ++ l))
      | JsElement _ => raise (concat_type_error "WebElement")
      | JsOther type_name => raise (concat_type_error type_name)
      end
  end.

(** The loop of [select_dropdown_option]: click the first option whose text
    is [option_text] and stop. *)
Fixpoint click_first_option (options : list WebElement) (option_text : string)
    : M unit :=
  match options with
  | [] => ret tt
  | option :: rest =>
      text <- call (element_text option) ;;
      if String.eqb text option_text
      then call (element_click option)
      else click_first_option rest option_text
  end.

(** [PageBase.select_dropdown_option] *)
Definition select_dropdown_option (locator option_text : string) : M unit :=
  dropdown <- find_element locator FIND_TIMEOUT ;;
  options <- call (element_find_elements_by_tag_name dropdown "option") ;;
  click_first_option options option_text.

(** [EC.text_to_be_present_in_element(locator, text)], after Selenium 3:
    whether [text] is in the text of the element; [False] when the lookup or
    the read raises [StaleElementReferenceException]. *)
Definition text_to_be_present_in_element (locator : By.t * string) (text : string)
    (driver : search_context WebElement) : ext (option bool) :=
  fun w =>
    let stale_is_false (e : exn) (w1 : W) (dt : N) : (exn + option bool) * W * N :=
      if isinstance e StaleElementReferenceException
      then (inr None, w1, dt) else (inl e, w1, dt) in
    match find_element_in driver (fst locator) (snd locator) w with
    | (inr element, w1, dt1) =>
        match element_text element w1 with
        | (inr element_text, w2, dt2) =>
            (inr (if PyStr.contains text element_text then Some true else None),
             w2, (dt1 + dt2)%N)
        | (inl e, w2, dt2) => stale_is_false e w2 (dt1 + dt2)%N
        end
    | (inl e, w1, dt1) => stale_is_false e w1 dt1
    end.

(** The classes most waits of the class list. *)
Definition WAIT_IGNORED : list exn_class :=
  [NoSuchElementException; ElementNotVisibleException; ElementNotSelectableException].

(** [PageBase.wait_till_text_is_present_in_element] *)
Definition wait_till_text_is_present_in_element (locator text : string)
    (timeout : N) : M bool :=
  try_except
    (by_ <- pure (get_by locator) ;;
     until (new_wait Driver timeout WAIT_IGNORED)
       (text_to_be_present_in_element by_ text) "")
    [([Exception], fun e => raise e)].

(** The loop of [WebDriverWait.until_not], after Selenium 3: a falsy value
    of the condition is returned (the conditions used here answer [False]),
    an ignored exception makes the wait return [True], any other exception
    leaves the loop; a truthy value is followed by a sleep and, once the
    clock is past [end_time], by [TimeoutException(message)]. *)
Fixpoint until_not_loop {V : Type} (fuel : nat) (ignored : list exn_class)
    (method : ext (option V)) (message : string) (end_time : N) (s : state)
    : outcome bool * state :=
  match fuel with
  | O => (OutOfFuel, s)
  | S fuel' =>
      let '(r, w, dt) := method (browser s) in
      let s1 := mkState w (clock s + dt) (sleeps s) in
      match r with
      | inr None => (Return false, s1)
      | inr (Some _) =>
          let s2 := do_sleep POLL_FREQUENCY s1 in
          if (end_time <? clock s2)%N
          then (Raise (mkExn TimeoutException message None None), s2)
          else until_not_loop fuel' ignored method message end_time s2
      | inl e =>
          if caught_by ignored e then (Return true, s1) else (Raise e, s1)
      end
  end.

(** [wait.until_not(method, message)] *)
Definition until_not {V : Type} (wait : WebDriverWait)
    (method : search_context WebElement -> ext (option V)) (message : string)
    : M bool :=
  fun s =>
    until_not_loop (max_polls (wait_timeout wait)) (wait_ignored wait)
      (method (wait_driver wait)) message
      (clock s + 1000 * wait_timeout wait) s.

(** [PageBase.wait_till_element_is_not_visible] *)
Definition wait_till_element_is_not_visible (locator : string) (timeout : N)
    : M bool :=
  try_except
    (by_ <- pure (get_by locator) ;;
     until_not (new_wait Driver timeout WAIT_IGNORED)
       (visibility_of_element_located by_) "")
    [([Exception], fun e => raise e)].

End PageBaseMore.

(** ** A page that records the clicks *)

(** A browser over a fixed page: its state is the list of the elements
    clicked so far; element [n] carries the text [labels n] and is displayed
    when [shown n] holds; every lookup of several elements finds [listed];
    reads do not change the state. *)
Record page : Type := mkPage {
  labels : nat -> string;
  shown : nat -> bool;
  listed : list nat
}.

Definition recording (pg : page) : Browser := {|
  W := list nat;
  WebElement := nat;
  find_element_in := fun _ _ _ w => (inr 0, w, 10%N);
  element_click := fun e w => (inr tt, (w ++ [e])%list, 10%N);
  element_clear := fun _ w => (inr tt, w, 10%N);
  element_send_keys := fun _ _ w => (inr tt, w, 10%N);
  element_get_attribute := fun _ _ w => (inr None, w, 10%N);
  element_is_displayed := fun e w => (inr (shown pg e), w, 10%N);
  element_str := fun e => "<WebElement " ++ PyStr.of_N (N.of_nat e) ++ ">"
|}.

Definition recording_more (pg : page) : BrowserMore (recording pg) :=
  @Build_BrowserMore (recording pg)
    (fun _ _ _ (w : list nat) => (@inr exn (list nat) (listed pg), w, 10%N))
    (fun _ _ (w : list nat) => (@inr exn (list nat) (listed pg), w, 10%N))
    (fun (e : nat) (w : list nat) => (@inr exn string (labels pg e), w, 10%N))
    (fun _ _ (w : list nat) => (@inr exn unit tt, w, 10%N)).

(** A state of a recorded run. *)
Definition recorded (pg : page) (clicked : list nat) (now : N) (slept : list N)
    : @state (recording pg) :=
  @mkState (recording pg) clicked now slept.

(** A drop-down with the options 1, 2 and 3; 2 and 3 carry the same
    text, and 2 is hidden. *)
Definition colours : page :=
  mkPage (fun n => match n with 1 => "red" | 2 => "green" | 3 => "green" | _ => "" end)
    (fun n => negb (Nat.eqb n 2)) [1; 2; 3].

(** More calls for a scripted browser: lookups of several elements answer
    like lookups of one, texts like attributes. *)
Definition scripted_more (sc : script) : BrowserMore (scripted sc) :=
  @Build_BrowserMore (scripted sc)
    (fun _ by_ value (n : nat) =>
       (match on_find sc by_ value n with
        | inr e => @inr exn (list nat) [e]
        | inl e => inl e
        end, S n, call_time sc))
    (fun _ _ (n : nat) => (@inr exn (list nat) [], S n, call_time sc))
    (fun _ (n : nat) =>
       (match on_attribute sc n with
        | inr (Some t) => @inr exn string t
        | inr None => inr ""
        | inl e => inl e
        end, S n, call_time sc))
    (fun _ _ (n : nat) => (on_click sc n, S n, call_time sc)).



(** ** The driver factory of [driverfactory.py] *)

Module DriverFactory.

(** [class BrowserType(Enum)] *)
Inductive BrowserType : Type :=
| CHROME | IE | FIREFOX | CHROME_REMOTE | OPERA | SAFARI.

Definition BrowserType_value (t : BrowserType) : string :=
  match t with
  | CHROME => "chrome"
  | IE => "ie"
  | FIREFOX => "firefox"
  | CHROME_REMOTE => "chrome_remote"
  | OPERA => "opera"
  | SAFARI => "safari"
  end.

(** [c.lower()] for an ASCII character; other bytes are left alone. *)
Definition lower_ascii (c : ascii) : ascii :=
  let n := nat_of_ascii c in
  if Nat.leb 65 n && Nat.leb n 90 then ascii_of_nat (n + 32) else c.

(** [s.lower()] for a string of ASCII characters. *)
Fixpoint lower (s : string) : string :=
  match s with
  | EmptyString => EmptyString
  | String c s' => String (lower_ascii c) (lower s')
  end.

(** [s.isascii()] *)
Fixpoint isascii (s : string) : bool :=
  match s with
  | EmptyString => true
  | String c s' => Nat.ltb (nat_of_ascii c) 128 && isascii s'
  end.

(** The constructor of Selenium that the factory calls, with its
    arguments: [webdriver.Firefox()], [webdriver.Ie()],
    [webdriver.Chrome(path, chrome_options=options)] with the arguments
    added to the options, [webdriver.Opera()], [webdriver.Safari()] and
    [webdriver.Remote(remote_url, desired_caps)]. *)
Inductive launch (Caps : Type) : Type :=
| Firefox
| Ie
| Chrome (executable_path : string) (arguments : list string)
| Opera
| Safari
| Remote (remote_url : option string) (desired_caps : option Caps).
Arguments Firefox {Caps}.
Arguments Ie {Caps}.
Arguments Chrome {Caps} executable_path arguments.
Arguments Opera {Caps}.
Arguments Safari {Caps}.
Arguments Remote {Caps} remote_url desired_caps.

(** Selenium as the factory uses it: starting a driver and maximizing its
    window change the machine and may raise. *)
Class WebDriverLib : Type := {
  Machine : Type;
  Caps : Type;
  WebDriver : Type;
  start_driver : launch Caps -> Machine -> (exn + WebDriver) * Machine;
  maximize_window : WebDriver -> Machine -> (exn + unit) * Machine
}.

Section Factory.
Context {L : WebDriverLib}.

(** The fields [DriverFactory.__init__] stores. *)
Record factory : Type := mkFactory {
  _browser : string;
  browser_version : option string;
  os_name : option string
}.

(** [DriverFactory(browser='ff', browser_version=None, os_name=None)] *)
Definition default_factory : factory := mkFactory "ff" None None.

(** Calling a method of [None]. *)
Definition none_has_no (attribute : string) : exn :=
  new_exn (OtherException "AttributeError" false)
    ("'NoneType' object has no attribute '" ++ attribute ++ "'").

(** The branch of [_run_local] that the browser name takes; [None] when no
    branch does and [local_driver] stays [None]. *)
Definition local_launch (browser : string) : option (launch Caps) :=
  if String.eqb (lower browser) "ff"
     || String.eqb (lower browser) (BrowserType_value FIREFOX)
  then Some Firefox
  else if String.eqb (lower browser) (BrowserType_value IE) then Some Ie
  else if String.eqb (lower browser) (BrowserType_value CHROME) then
    Some (Chrome "c:\chromedriver.exe"
            ["--disable-infobars"; "--use-fake-device-for-media-stream";
             "--use-fake-ui-for-media-stream"])
  else if String.eqb (lower browser) (BrowserType_value OPERA) then Some Opera
  else if String.eqb (lower browser) (BrowserType_value SAFARI) then Some Safari
  else None.

(** [DriverFactory._run_local] *)
Definition _run_local (browser : string) (m : Machine) : (exn + WebDriver) * Machine :=
  match local_launch browser with
  | Some l =>
      match start_driver l m with
      | (inr local_driver, m1) =>
          match maximize_window local_driver m1 with
          | (inr _, m2) => (inr local_driver, m2)
          | (inl e, m2) => (inl e, m2)
          end
      | (inl e, m1) => (inl e, m1)
      end
  | None => (inl (none_has_no "maximize_window"), m)
  end.

(** [DriverFactory._run_remote] *)
Definition _run_remote (remote_url : option string) (desired_caps : option Caps)
    (m : Machine) : (exn + WebDriver) * Machine :=
  start_driver (Remote remote_url desired_caps) m.

(** [DriverFactory.get_web_driver] *)
Definition get_web_driver (self : factory) (remote_flag : bool)
    (remote_url : option string) (desired_caps : option Caps) (m : Machine)
    : (exn + WebDriver) * Machine :=
  if remote_flag then _run_remote remote_url desired_caps m
  else _run_local (_browser self) m.

(** The names that [_run_local] knows, in lower case. *)
Definition local_names : list string :=
  ["ff"; "firefox"; "ie"; "chrome"; "opera"; "safari"].

(** A launch of the local path. *)
Definition is_local (l : launch Caps) : bool :=
  match l with
  | Remote _ _ => false
  | _ => true
  end.

End Factory.

(** A machine that logs what is started and maximized: drivers are numbered
    in the order they start. *)
Inductive machine_event : Type :=
| Started (l : launch unit)
| Maximized (driver : nat).

Definition logging_lib : WebDriverLib := {|
  Machine := list machine_event;
  Caps := unit;
  WebDriver := nat;
  start_driver := fun l m => (inr (List.length m), (m ++ [Started l])%list);
  maximize_window := fun d m => (inr tt, (m ++ [Maximized d])%list)
|}.

End DriverFactory.

(** ** Facts about [split], [contains] and [join] *)

Module PyStrFacts.
Import PyStr.

Lemma append_nil_r (s : string) : s ++ "" = s.
Proof. induction s as [|c s IH]; simpl; [reflexivity | now rewrite IH]. Qed.

Lemma append_assoc (a b c : string) : (a ++ b) ++ c = a ++ b ++ c.
Proof. induction a as [|x a IH]; simpl; [reflexivity | now rewrite IH]. Qed.

Lemma append_snoc (cur : string) (c : ascii) (s : string) :
  (cur ++ String c "") ++ s = cur ++ String c s.
Proof. now rewrite append_assoc. Qed.

Lemma length_append (a b : string) :
  String.length (a ++ b) = String.length a + String.length b.
Proof. induction a as [|x a IH]; simpl; [reflexivity | now rewrite IH]. Qed.

Lemma prefix_nil (s : string) : String.prefix "" s = true.
Proof. destruct s; reflexivity. Qed.

Lemma prefix_append (sep r : string) : String.prefix sep (sep ++ r) = true.
Proof.
  induction sep as [|c sep IH]; simpl.
  - apply prefix_nil.
  - destruct (ascii_dec c c) as [_|ne]; [exact IH | now elim ne].
Qed.

Lemma prefix_inv (sep s : string) :
  String.prefix sep s = true -> exists r, s = sep ++ r.
Proof.
  revert s; induction sep as [|c sep IH]; intros s H.
  - now exists s.
  - destruct s as [|d s]; simpl in H; [discriminate |].
    destruct (ascii_dec c d) as [->|_]; [| discriminate].
    destruct (IH _ H) as [r ->]. now exists r.
Qed.

Lemma prefix_cons_neq (a b : ascii) (s1 s2 : string) :
  a <> b -> String.prefix (String a s1) (String b s2) = false.
Proof.
  intros H. cbn [String.prefix].
  destruct (ascii_dec a b) as [E|_]; [now elim H | reflexivity].
Qed.

Section Sep.
Variables (c0 : ascii) (sep' : string).
Let sep := String c0 sep'.

(** Skipping the rest of a matched separator. *)
Lemma split_go_skip (t r cur : string) :
  split_go sep (String.length t) cur (t ++ r) = split_go sep 0 cur r.
Proof. induction t as [|x t IH]; simpl; [reflexivity | exact IH]. Qed.

Lemma split_go_sep (cur r : string) :
  split_go sep 0 cur (sep ++ r) = cur :: split_go sep 0 "" r.
Proof.
  change (sep ++ r) with (String c0 (sep' ++ r)).
  unfold split_go at 1; fold split_go.
  change (String c0 (sep' ++ r)) with (sep ++ r).
  rewrite prefix_append.
  replace (String.length sep - 1) with (String.length sep')
    by (subst sep; simpl; lia).
  now rewrite split_go_skip.
Qed.

Lemma split_go_char (cur : string) (c : ascii) (s : string) :
  String.prefix sep (String c s) = false ->
  split_go sep 0 cur (String c s) = split_go sep 0 (cur ++ String c "") s.
Proof. intros H. unfold split_go at 1; fold split_go. now rewrite H. Qed.

(** Induction along the scan: a separator is passed over whole. *)
Lemma scan_ind (P : string -> Prop) :
  P "" ->
  (forall r, P r -> P (sep ++ r)) ->
  (forall c s, String.prefix sep (String c s) = false -> P s -> P (String c s)) ->
  forall s, P s.
Proof.
  intros Hnil Hsep Hchar s.
  remember (String.length s) as n eqn:Hn.
  revert s Hn; induction n as [n IH] using lt_wf_ind; intros s Hn.
  destruct s as [|c s]; [exact Hnil |].
  destruct (String.prefix sep (String c s)) eqn:Hp.
  - destruct (prefix_inv _ _ Hp) as [r Hr]. rewrite Hr. apply Hsep.
    apply (IH (String.length r)); [| reflexivity].
    rewrite Hn, Hr, length_append. subst sep; simpl; lia.
  - apply Hchar; [exact Hp |].
    apply (IH (String.length s)); [| reflexivity]. subst n; simpl; lia.
Qed.

Lemma contains_sep (r : string) : contains sep (sep ++ r) = true.
Proof.
  change (sep ++ r) with (String c0 (sep' ++ r)).
  unfold contains; fold contains.
  change (String c0 (sep' ++ r)) with (sep ++ r).
  now rewrite prefix_append.
Qed.

Lemma contains_char (c : ascii) (s : string) :
  String.prefix sep (String c s) = false ->
  contains sep (String c s) = contains sep s.
Proof. intros H. unfold contains at 1; fold contains. now rewrite H. Qed.

Lemma contains_nil : contains sep "" = false.
Proof. reflexivity. Qed.

Lemma contains_append_l (a s : string) :
  contains sep s = true -> contains sep (a ++ s) = true.
Proof.
  intros H; induction a as [|x a IH]; simpl; [exact H |].
  rewrite IH. apply orb_true_r.
Qed.

Lemma split_go_nonempty (cur s : string) : split_go sep 0 cur s <> [].
Proof.
  revert cur; induction s as [| r IH | c s Hp IH] using scan_ind; intros cur.
  - discriminate.
  - rewrite split_go_sep. discriminate.
  - rewrite (split_go_char _ _ _ Hp). apply IH.
Qed.

(** The first part carries what was read before the scan reached [s]. *)
Lemma split_go_cur (cur s : string) :
  exists p rest, split_go sep 0 "" s = p :: rest
                 /\ split_go sep 0 cur s = (cur ++ p) :: rest.
Proof.
  revert cur; induction s as [| r IH | c s Hp IH] using scan_ind; intros cur.
  - exists "", []. simpl. now rewrite append_nil_r.
  - exists "", (split_go sep 0 "" r). rewrite !split_go_sep.
    now rewrite append_nil_r.
  - rewrite !(split_go_char _ _ _ Hp).
    destruct (IH (String c "")) as (p & rest & E0 & E1).
    destruct (IH (cur ++ String c "")) as (p' & rest' & E0' & E1').
    rewrite E0 in E0'. injection E0' as <- <-.
    exists (String c p), rest. simpl. rewrite E1. split; [reflexivity |].
    rewrite E1'. now rewrite append_snoc.
Qed.

(** A string without the separator is a single part. *)
Lemma split_go_no_sep (cur s : string) :
  contains sep s = false -> split_go sep 0 cur s = [cur ++ s].
Proof.
  revert cur; induction s as [| r IH | c s Hp IH] using scan_ind; intros cur H.
  - simpl. now rewrite append_nil_r.
  - now rewrite contains_sep in H.
  - rewrite (contains_char _ _ Hp) in H.
    rewrite (split_go_char _ _ _ Hp), (IH _ H). now rewrite append_snoc.
Qed.

(** A string with the separator has at least two parts. *)
Lemma split_go_has_sep (cur s : string) :
  contains sep s = true ->
  exists p v rest, split_go sep 0 cur s = p :: v :: rest.
Proof.
  revert cur; induction s as [| r IH | c s Hp IH] using scan_ind; intros cur H.
  - discriminate.
  - rewrite split_go_sep.
    destruct (split_go sep 0 "" r) as [|v rest] eqn:E.
    + now apply split_go_nonempty in E.
    + now exists cur, v, rest.
  - rewrite (contains_char _ _ Hp) in H.
    rewrite (split_go_char _ _ _ Hp). now apply IH.
Qed.

Lemma join_cons (p : string) (parts : list string) :
  parts <> [] -> join sep (p :: parts) = p ++ sep ++ join sep parts.
Proof. destruct parts; [congruence | reflexivity]. Qed.

(** Joining the parts with the separator gives the string back. *)
Lemma join_split_go (cur s : string) :
  join sep (split_go sep 0 cur s) = cur ++ s.
Proof.
  revert cur; induction s as [| r IH | c s Hp IH] using scan_ind; intros cur.
  - simpl. now rewrite append_nil_r.
  - rewrite split_go_sep, join_cons by apply split_go_nonempty.
    now rewrite IH.
  - rewrite (split_go_char _ _ _ Hp), IH. now rewrite append_snoc.
Qed.

End Sep.

Lemma join_split (s : string) : join SEP (split SEP s) = s.
Proof. apply (join_split_go "@" "@" "" s). Qed.

Lemma split_no_sep (s : string) :
  contains SEP s = false -> split SEP s = [s].
Proof. intros H. apply (split_go_no_sep "@" "@" "" s H). Qed.

Lemma split_has_sep (s : string) :
  contains SEP s = true -> exists p v rest, split SEP s = p :: v :: rest.
Proof. intros H. apply (split_go_has_sep "@" "@" "" s H). Qed.

Lemma split_two_contains (s p v : string) (rest : list string) :
  split SEP s = p :: v :: rest -> contains SEP s = true.
Proof.
  intros H. destruct (contains SEP s) eqn:E; [reflexivity |].
  rewrite (split_no_sep _ E) in H. discriminate.
Qed.

End PyStrFacts.

(** ** The resolver on the scenarios of the specification *)

Example get_by_xpath :
  get_by "xpath@@//div[@id='x']" = inr (By.XPATH, "//div[@id='x']").
Proof. reflexivity. Qed.

Example get_by_myid : get_by "myid" = inr (By.ID, "myid").
Proof. reflexivity. Qed.

Example get_by_bogus :
  get_by "bogus@@foo"
  = inl (new_exn Exception
          " Incorrect locator specified . Locator has to be either xpath,id,css,tagname -->bogus@@foo").
Proof. reflexivity. Qed.

Example get_by_two_separators : get_by "css@@a@@b" = inr (By.CSS_SELECTOR, "a").
Proof. reflexivity. Qed.

Example split_overlap : PyStr.split SEP "a@@@b@@@@c" = ["a"; "@b"; ""; "c"].
Proof. reflexivity. Qed.


(** ** The class hierarchy *)

Lemma exn_class_eqb_eq (a b : exn_class) : exn_class_eqb a b = true <-> a = b.
Proof.
  revert b. induction a as [ | | | | | | | |n w|n a IH]; intros b;
    destruct b as [ | | | | | | | |n' w'|n' b]; cbn;
    split; intros H; try discriminate H; try reflexivity.
  - apply andb_true_iff in H. destruct H as [Hn Hw].
    apply String.eqb_eq in Hn. apply Bool.eqb_prop in Hw. now subst.
  - injection H as -> ->. now rewrite String.eqb_refl, Bool.eqb_reflx.
  - apply andb_true_iff in H. destruct H as [Hn Hb].
    apply String.eqb_eq in Hn. apply IH in Hb. now subst.
  - injection H as -> ->. rewrite String.eqb_refl. cbn. now apply IH.
Qed.

Lemma exn_class_eqb_refl (a : exn_class) : exn_class_eqb a a = true.
Proof. now apply exn_class_eqb_eq. Qed.

Lemma derives_refl (a : exn_class) : derives a a = true.
Proof. destruct a; cbn [derives]; rewrite exn_class_eqb_refl; reflexivity. Qed.

Lemma derives_Subclass (n : string) (base c : exn_class) :
  named c -> derives (Subclass n base) c = derives base c.
Proof.
  intros Hc. cbn [derives].
  destruct c; try reflexivity. now destruct (Hc name c).
Qed.

(** A class derives from at most one of the named classes: each class is
    declared from one class, and no named class from another. *)
Lemma derives_one_named (a c1 c2 : exn_class) :
  named c1 -> named c2 -> c1 <> c2 ->
  derives a c1 = true -> derives a c2 = false.
Proof.
  intros H1 H2 Hne. induction a as [ | | | | | | | |n w|n a IH];
    try (cbn [derives]; rewrite !orb_false_r; intros H;
         apply exn_class_eqb_eq in H; subst c1;
         destruct (exn_class_eqb _ c2) eqn:E; [| reflexivity];
         apply exn_class_eqb_eq in E; now destruct Hne).
  rewrite !derives_Subclass by assumption. exact IH.
Qed.

Lemma isinstance_Exception (e : exn) : isinstance e Exception = true.
Proof. reflexivity. Qed.

Lemma isinstance_cls (e : exn) : isinstance e (cls e) = true.
Proof. unfold isinstance. destruct (cls e) eqn:E; try reflexivity;
  rewrite <- E; apply derives_refl. Qed.

Ltac named_class := intros ? ?; discriminate.

(** An instance of one of the classes the waits and the decorators list is
    an instance of no other of them. *)
Lemma isinstance_stale_not_no_such_element (e : exn) :
  isinstance e StaleElementReferenceException = true ->
  isinstance e NoSuchElementException = false.
Proof.
  apply derives_one_named; [named_class | named_class | discriminate].
Qed.

Lemma isinstance_no_such_element_not_stale (e : exn) :
  isinstance e NoSuchElementException = true ->
  isinstance e StaleElementReferenceException = false.
Proof.
  apply derives_one_named; [named_class | named_class | discriminate].
Qed.

Lemma isinstance_timeout_not_no_such_element (e : exn) :
  isinstance e TimeoutException = true ->
  isinstance e NoSuchElementException = false.
Proof.
  apply derives_one_named; [named_class | named_class | discriminate].
Qed.

(** [InvalidSelectorException] is a [NoSuchElementException]. *)
Lemma isinstance_InvalidSelectorException (m : string) (scr : option string)
    (st : option (list string)) :
  isinstance (mkExn InvalidSelectorException m scr st) NoSuchElementException = true.
Proof. reflexivity. Qed.

(** The plain [Exception] that the page methods raise is of none of the
    listed classes. *)
Lemma derives_Exception (c : exn_class) :
  named c -> c <> Exception -> derives Exception c = false.
Proof.
  intros _ Hc. cbn. rewrite orb_false_r. destruct c; try reflexivity. now destruct Hc.
Qed.


(** ** The locator resolver *)

Section Resolver.
Import PyStr PyStrFacts.

Lemma Strategy_value_inj (a b : Strategy) :
  Strategy_value a = Strategy_value b -> a = b.
Proof. destruct a, b; simpl; intros H; try reflexivity; discriminate. Qed.

(** The branch of [__get_by] a strategy token takes. *)
Lemma get_by_parts (s : string) (st : Strategy) (v : string) (rest : list string) :
  split SEP s = Strategy_value st :: v :: rest ->
  get_by s = inr (by_of st, v).
Proof.
  intros H. unfold get_by.
  rewrite (split_two_contains _ _ _ _ H). simpl negb. cbv iota.
  rewrite H. unfold index. simpl nth_error. cbv iota.
  destruct st; reflexivity.
Qed.

(** The branch of [__get_by] an unknown token takes. *)
Lemma get_by_unknown (s p v : string) (rest : list string) :
  split SEP s = p :: v :: rest ->
  (forall st, p <> Strategy_value st) ->
  get_by s
  = inl (new_exn Exception
          (" Incorrect locator specified . Locator has to be either xpath,id,css,tagname -->"
           ++ s)).
Proof.
  intros H Hp. unfold get_by.
  rewrite (split_two_contains _ _ _ _ H). simpl negb. cbv iota.
  rewrite H. unfold index. simpl nth_error. cbv iota.
  destruct (String.eqb_spec p (Strategy_value XPATH)) as [E|_]; [now elim (Hp XPATH) |].
  destruct (String.eqb_spec p (Strategy_value ID)) as [E|_]; [now elim (Hp ID) |].
  destruct (String.eqb_spec p (Strategy_value CSS)) as [E|_]; [now elim (Hp CSS) |].
  destruct (String.eqb_spec p (Strategy_value TAGNAME)) as [E|_]; [now elim (Hp TAGNAME) |].
  reflexivity.
Qed.

(** Characters other than ['@'] are read into the current part. *)
Lemma split_go_token (tok cur r : string) :
  no_at tok = true ->
  split_go SEP 0 cur (tok ++ SEP ++ r) = (cur ++ tok) :: split_go SEP 0 "" r.
Proof.
  unfold SEP.
  revert cur; induction tok as [|c tok IH]; intros cur H.
  - rewrite append_nil_r. apply (split_go_sep "@" "@").
  - simpl in H. apply andb_true_iff in H as [Hc Ht].
    apply negb_true_iff, Ascii.eqb_neq in Hc.
    change (String c tok ++ "@@" ++ r) with (String c (tok ++ "@@" ++ r)).
    rewrite (split_go_char "@" "@").
    + rewrite (IH _ Ht). now rewrite append_snoc.
    + apply prefix_cons_neq. congruence.
Qed.

Lemma no_at_Strategy_value (st : Strategy) : no_at (Strategy_value st) = true.
Proof. destruct st; reflexivity. Qed.

(** A locator without separator is read as ["id@@" + locator]. *)
Lemma split_default_id (s : string) :
  contains SEP s = false -> split SEP (Strategy_value ID ++ SEP ++ s) = ["id"; s].
Proof.
  intros H. unfold split.
  rewrite split_go_token by apply no_at_Strategy_value.
  unfold SEP in *. now rewrite (split_go_no_sep "@" "@" "" s H).
Qed.

(** C1. A locator string with exactly one ["@@"] (its split has two
    parts) whose first part is a strategy token resolves to the [By]
    constant of that strategy paired with the second part, which is all of
    the string after the separator. *)
Theorem get_by_one_separator (s : string) (st : Strategy) (v : string) :
  split SEP s = [Strategy_value st; v] ->
  get_by s = inr (by_of st, v) /\ s = Strategy_value st ++ SEP ++ v.
Proof.
  intros H. split.
  - exact (get_by_parts _ _ _ _ H).
  - rewrite <- (join_split s) at 1. now rewrite H.
Qed.

Lemma get_by_one_separator_witness :
  split SEP "tag name@@input" = [Strategy_value TAGNAME; "input"]
  /\ get_by "tag name@@input" = inr (By.TAG_NAME, "input")
  /\ "tag name@@input" = Strategy_value TAGNAME ++ SEP ++ "input".
Proof.
  split; [reflexivity |].
  apply (get_by_one_separator "tag name@@input" TAGNAME "input"). reflexivity.
Defined.

(** Every token followed by one separator and a value free of separators
    is such a string. *)
Lemma split_token_value (st : Strategy) (v : string) :
  contains SEP v = false ->
  split SEP (Strategy_value st ++ SEP ++ v) = [Strategy_value st; v].
Proof.
  intros H. unfold split.
  rewrite split_go_token by apply no_at_Strategy_value.
  unfold SEP in *. now rewrite (split_go_no_sep "@" "@" "" v H).
Qed.

(** C2. A locator string without ["@@"] resolves to [By.ID] with the whole
    string as the value. *)
Theorem get_by_no_separator (s : string) :
  contains SEP s = false -> get_by s = inr (By.ID, s).
Proof.
  intros H. unfold get_by. rewrite H. simpl negb. cbv iota.
  rewrite (split_default_id _ H). reflexivity.
Qed.

Lemma get_by_no_separator_witness :
  contains SEP "submit-button" = false
  /\ get_by "submit-button" = inr (By.ID, "submit-button").
Proof.
  split; [reflexivity |]. apply get_by_no_separator. reflexivity.
Defined.

(** C3. A locator string that contains ["@@"] and whose part before the
    first separator is none of the four strategy tokens (compared as
    strings, so case matters) is rejected: the resolver raises the
    [Exception] with the "Incorrect locator specified" message. *)
Theorem get_by_unknown_strategy (s p : string) (rest : list string) :
  contains SEP s = true ->
  split SEP s = p :: rest ->
  (forall st, p <> Strategy_value st) ->
  get_by s
  = inl (new_exn Exception
          (" Incorrect locator specified . Locator has to be either xpath,id,css,tagname -->"
           ++ s)).
Proof.
  intros Hc Hs Hp.
  destruct (split_has_sep _ Hc) as (p' & v & rest' & E).
  rewrite E in Hs. injection Hs as -> <-.
  exact (get_by_unknown _ _ _ _ E Hp).
Qed.

Lemma get_by_unknown_strategy_witness :
  contains SEP "XPATH@@//a" = true
  /\ split SEP "XPATH@@//a" = ["XPATH"; "//a"]
  /\ (forall st, "XPATH" <> Strategy_value st)
  /\ get_by "XPATH@@//a"
     = inl (new_exn Exception
             " Incorrect locator specified . Locator has to be either xpath,id,css,tagname -->XPATH@@//a").
Proof.
  assert (Hp : forall st, "XPATH" <> Strategy_value st)
    by (intros st; destruct st; discriminate).
  split; [reflexivity |]. split; [reflexivity |]. split; [exact Hp |].
  apply (get_by_unknown_strategy "XPATH@@//a" "XPATH" ["//a"]);
    [reflexivity | reflexivity | exact Hp].
Defined.

(** The resolver never indexes out of range. *)
Lemma get_by_rejects_only_tokens (s : string) (e : exn) :
  get_by s = inl e ->
  contains SEP s = true
  /\ (exists p rest, split SEP s = p :: rest /\ forall st, p <> Strategy_value st)
  /\ e = new_exn Exception
           (" Incorrect locator specified . Locator has to be either xpath,id,css,tagname -->"
            ++ s).
Proof.
  intros H.
  destruct (contains SEP s) eqn:Hc.
  - split; [reflexivity |].
    destruct (split_has_sep _ Hc) as (p & v & rest & E).
    assert (Hp : forall st, p <> Strategy_value st).
    { intros st ->. rewrite (get_by_parts _ _ _ _ E) in H. discriminate. }
    split; [now exists p, (v :: rest) |].
    rewrite (get_by_unknown _ _ _ _ E Hp) in H. now injection H as <-.
  - unfold get_by in H. rewrite Hc in H. simpl negb in H. cbv iota in H.
    rewrite (split_default_id _ Hc) in H. discriminate.
Qed.

(** C4, as the code has it. The resolver does not look at the value: a
    strategy token followed by the separator and nothing else resolves to
    that strategy with the empty value, the empty string resolves to
    [By.ID] with the empty value, and the only locator strings it rejects
    are those that contain ["@@"] after a part that is no strategy token. *)
Theorem get_by_accepts_empty_value :
  (forall st, get_by (Strategy_value st ++ SEP) = inr (by_of st, ""))
  /\ get_by "" = inr (By.ID, "")
  /\ (forall s e, get_by s = inl e ->
        exists p rest, contains SEP s = true /\ split SEP s = p :: rest
                       /\ forall st, p <> Strategy_value st).
Proof.
  split; [intros st; destruct st; reflexivity |].
  split; [reflexivity |].
  intros s e H. destruct (get_by_rejects_only_tokens _ _ H) as (Hc & (p & rest & E & Hp) & _).
  now exists p, rest.
Qed.

(** C4, as stated, fails: ["xpath@@"] and the empty string have an empty
    value component and are resolved to a pair with the empty value, not
    rejected. *)
Lemma get_by_empty_value_resolved :
  get_by "xpath@@" = inr (By.XPATH, "") /\ get_by "" = inr (By.ID, "").
Proof. split; reflexivity. Qed.

(** C10. When the split of a locator string has three parts or more and
    the first is a strategy token, the resolver returns the second part
    alone, the text between the first and the second separator; what
    follows the second separator is in neither the value nor an error. *)
Theorem get_by_drops_after_second_separator
    (s : string) (st : Strategy) (v w : string) (rest : list string) :
  split SEP s = Strategy_value st :: v :: w :: rest ->
  get_by s = inr (by_of st, v)
  /\ s = Strategy_value st ++ SEP ++ v ++ SEP ++ join SEP (w :: rest).
Proof.
  intros H. split.
  - exact (get_by_parts _ _ _ _ H).
  - rewrite <- (join_split s) at 1. rewrite H.
    rewrite (join_cons "@" "@") by discriminate.
    rewrite (join_cons "@" "@") by discriminate.
    reflexivity.
Qed.

Lemma get_by_drops_after_second_separator_witness :
  split SEP "xpath@@//ul@@li@@a" = [Strategy_value XPATH; "//ul"; "li"; "a"]
  /\ get_by "xpath@@//ul@@li@@a" = inr (By.XPATH, "//ul")
  /\ "xpath@@//ul@@li@@a"
     = Strategy_value XPATH ++ SEP ++ "//ul" ++ SEP ++ join SEP ["li"; "a"].
Proof.
  split; [reflexivity |].
  apply (get_by_drops_after_second_separator "xpath@@//ul@@li@@a" XPATH "//ul" "li" ["a"]).
  reflexivity.
Defined.

End Resolver.

(** ** The polling loop *)

Section WaitFacts.
Context {B : Browser}.

Lemma bind_ret {A C : Type} (a : A) (k : A -> M C) (s : state) :
  bind (ret a) k s = k a s.
Proof. reflexivity. Qed.

Lemma caught_by_Exception (e : exn) : caught_by [Exception] e = true.
Proof. reflexivity. Qed.

(** With a poll left for every interval that fits before the deadline the
    loop is never cut, and it ends in one of the three ways. *)
Lemma until_loop_ends {V : Type} (ignored : list exn_class)
    (method : ext (option V)) (message : string) (end_time : N) :
  forall (fuel : nat) (scr : option string) (st : option (list string)) (s : state),
    (end_time < clock s + POLL_FREQUENCY * N.of_nat (S fuel))%N ->
    until_ends ignored method message end_time
      (fst (until_loop (S fuel) ignored method message end_time scr st s))
      (snd (until_loop (S fuel) ignored method message end_time scr st s)).
Proof.
  unfold POLL_FREQUENCY.
  induction fuel as [|fuel IH]; intros scr st s Hfuel.
  - cbn [until_loop].
    destruct (method (browser s)) as [[r w] dt] eqn:Hm.
    assert (Hlate : (end_time <? clock (do_sleep POLL_FREQUENCY
                       (mkState w (clock s + dt) (sleeps s))))%N = true).
    { apply N.ltb_lt. unfold POLL_FREQUENCY. cbn [do_sleep clock]. lia. }
    destruct r as [e | [v|]].
    + destruct (caught_by ignored e) eqn:Hc.
      * rewrite Hlate. cbn. right; left. eexists _, _. split; [reflexivity |].
        apply N.ltb_lt in Hlate. exact Hlate.
      * cbn. right; right. now exists e, (browser s), dt.
    + cbn. left. now exists v, (browser s), dt.
    + rewrite Hlate. cbn. right; left. eexists _, _. split; [reflexivity |].
      apply N.ltb_lt in Hlate. exact Hlate.
  - remember (S fuel) as n eqn:Hn.
    cbn [until_loop].
    destruct (method (browser s)) as [[r w] dt] eqn:Hm.
    set (s2 := do_sleep POLL_FREQUENCY (mkState w (clock s + dt) (sleeps s))).
    assert (Hnext : (end_time < clock s2 + 500 * N.of_nat n)%N).
    { subst s2 n. unfold POLL_FREQUENCY. cbn [do_sleep clock]. lia. }
    destruct r as [e | [v|]].
    + destruct (caught_by ignored e) eqn:Hc.
      * destruct (end_time <? clock s2)%N eqn:Hlate.
        -- cbn. right; left. eexists _, _. split; [reflexivity |].
           now apply N.ltb_lt in Hlate.
        -- subst n. apply IH. exact Hnext.
      * cbn. right; right. now exists e, (browser s), dt.
    + cbn. left. now exists v, (browser s), dt.
    + destruct (end_time <? clock s2)%N eqn:Hlate.
      * cbn. right; left. eexists _, _. split; [reflexivity |].
        now apply N.ltb_lt in Hlate.
      * subst n. apply IH. exact Hnext.
Qed.

Lemma max_polls_enough (timeout now : N) :
  (now + 1000 * timeout
   < now + POLL_FREQUENCY * N.of_nat (S (N.to_nat (1000 * timeout / POLL_FREQUENCY))))%N.
Proof.
  unfold POLL_FREQUENCY.
  rewrite Nat2N.inj_succ, N2Nat.id.
  pose proof (N.mul_succ_div_gt (1000 * timeout) 500 ltac:(lia)). lia.
Qed.

(** [until] ends in one of the three ways. *)
Lemma until_spec {V : Type} (wait : WebDriverWait)
    (method : search_context WebElement -> ext (option V)) (message : string)
    (s : state) :
  until_ends (wait_ignored wait) (method (wait_driver wait)) message
    (clock s + 1000 * wait_timeout wait)
    (fst (until wait method message s)) (snd (until wait method message s)).
Proof.
  unfold until, max_polls. apply until_loop_ends. apply max_polls_enough.
Qed.

(** No wait is cut short of its end. *)
Lemma until_total {V : Type} (wait : WebDriverWait)
    (method : search_context WebElement -> ext (option V)) (message : string)
    (s : state) :
  fst (until wait method message s) <> OutOfFuel.
Proof.
  destruct (until_spec wait method message s)
    as [(v & w & dt & E & _) | [(scr & st & E & _) | (e & w & dt & E & _)]];
    rewrite E; discriminate.
Qed.

(** A poll that returns a truthy value ends the wait with it. *)
Lemma until_first_poll_value {V : Type} (wait : WebDriverWait)
    (method : search_context WebElement -> ext (option V)) (message : string)
    (s : state) (v : V) (w : W) (dt : N) :
  method (wait_driver wait) (browser s) = (inr (Some v), w, dt) ->
  until wait method message s = (Return v, mkState w (clock s + dt) (sleeps s)).
Proof. intros H. unfold until, max_polls. cbn [until_loop]. now rewrite H. Qed.

(** A poll that raises an exception the wait does not ignore ends the
    wait with it, before any sleep. *)
Lemma until_first_poll_error {V : Type} (wait : WebDriverWait)
    (method : search_context WebElement -> ext (option V)) (message : string)
    (s : state) (e : exn) (w : W) (dt : N) :
  method (wait_driver wait) (browser s) = (inl e, w, dt) ->
  caught_by (wait_ignored wait) e = false ->
  until wait method message s = (Raise e, mkState w (clock s + dt) (sleeps s)).
Proof.
  intros H Hc. unfold until, max_polls. cbn [until_loop]. now rewrite H, Hc.
Qed.

(** A first poll that is falsy or raises an ignored exception is followed
    by a sleep and, if the deadline has not passed, by a second poll; a
    truthy value of that one is returned. *)
Lemma until_second_poll_value {V : Type} (wait : WebDriverWait)
    (method : search_context WebElement -> ext (option V)) (message : string)
    (s : state) (r1 : exn + option V) (v : V) (w1 w2 : W) (dt1 dt2 : N) :
  method (wait_driver wait) (browser s) = (r1, w1, dt1) ->
  match r1 with
  | inl e => caught_by (wait_ignored wait) e = true
  | inr None => True
  | inr (Some _) => False
  end ->
  (dt1 + POLL_FREQUENCY <= 1000 * wait_timeout wait)%N ->
  method (wait_driver wait) w1 = (inr (Some v), w2, dt2) ->
  until wait method message s
  = (Return v, mkState w2 (clock s + dt1 + POLL_FREQUENCY + dt2)
                 (sleeps s ++ [POLL_FREQUENCY])).
Proof.
  intros H1 Hr Ht H2. unfold until, max_polls. unfold POLL_FREQUENCY in *.
  assert (Hq : exists n, N.to_nat (1000 * wait_timeout wait / 500) = S n).
  { assert (1 <= 1000 * wait_timeout wait / 500)%N
      by (apply N.div_le_lower_bound; lia).
    exists (pred (N.to_nat (1000 * wait_timeout wait / 500))). lia. }
  destruct Hq as [n ->].
  cbn [until_loop]. unfold POLL_FREQUENCY. rewrite H1.
  assert (Hlate : (clock s + 1000 * wait_timeout wait
                   <? clock (do_sleep 500
                               (mkState w1 (clock s + dt1) (sleeps s))))%N = false).
  { apply N.ltb_ge. cbn [do_sleep clock]. lia. }
  destruct r1 as [e | [v'|]]; [rewrite Hr | contradiction |];
    rewrite Hlate; cbn [do_sleep browser clock sleeps]; now rewrite H2.
Qed.

(** *** The wait, poll by poll *)

Lemma poll_start_S {V : Type} (method : ext (option V)) (k : nat) (s : state) :
  poll_start method (S k) s
  = poll_start method k (do_sleep POLL_FREQUENCY (after_poll method s)).
Proof.
  unfold poll_start.
  exact (Nat.iter_succ_r k _ (fun s0 => do_sleep POLL_FREQUENCY (after_poll method s0)) s).
Qed.

Lemma poll_start_next {V : Type} (method : ext (option V)) (k : nat) (s : state) :
  poll_start method (S k) s
  = do_sleep POLL_FREQUENCY (after_poll method (poll_start method k s)).
Proof. reflexivity. Qed.

Lemma after_poll_eq {V : Type} (method : ext (option V)) (s : state)
    (r : exn + option V) (w : W) (dt : N) :
  method (browser s) = (r, w, dt) ->
  after_poll method s = mkState w (clock s + dt) (sleeps s)
  /\ poll_result method s = r.
Proof. intros H. unfold after_poll, poll_result. now rewrite H. Qed.

(** Each poll before poll [k] was followed by one sleep of the poll
    interval, and by nothing else that sleeps. *)
Lemma sleeps_poll_start {V : Type} (method : ext (option V)) (k : nat) (s : state) :
  sleeps (poll_start method k s) = (sleeps s ++ repeat POLL_FREQUENCY k)%list.
Proof.
  induction k as [|k IH].
  - cbn. now rewrite app_nil_r.
  - rewrite poll_start_next. cbn [do_sleep sleeps after_poll]. rewrite IH.
    rewrite <- app_assoc. f_equal.
    change [POLL_FREQUENCY] with (repeat POLL_FREQUENCY 1).
    rewrite <- repeat_app. f_equal. lia.
Qed.

Lemma clock_poll_start {V : Type} (method : ext (option V)) (k : nat) (s : state) :
  (clock s + POLL_FREQUENCY * N.of_nat k <= clock (poll_start method k s))%N.
Proof.
  induction k as [|k IH].
  - cbn. lia.
  - rewrite poll_start_next. cbn [do_sleep clock after_poll]. lia.
Qed.

Lemma waiting_next {V : Type} (ignored : list exn_class) (method : ext (option V))
    (deadline : N) (n : nat) (s : state) :
  waiting ignored method deadline (S n) s ->
  goes_on ignored (poll_result method s) = true
  /\ (deadline <? clock (do_sleep POLL_FREQUENCY (after_poll method s)))%N = false
  /\ waiting ignored method deadline n (do_sleep POLL_FREQUENCY (after_poll method s)).
Proof.
  intros H. destruct (H 0 ltac:(lia)) as [H0 H1]. split; [exact H0 |]. split.
  - apply N.ltb_ge. exact H1.
  - intros k Hk. rewrite <- !poll_start_S. apply H. lia.
Qed.

(** While the wait is on, the loop goes from poll to poll. *)
Lemma until_loop_waiting {V : Type} (ignored : list exn_class)
    (method : ext (option V)) (message : string) (end_time : N) (fuel : nat) :
  forall (n : nat) (scr : option string) (st : option (list string)) (s : state),
    waiting ignored method end_time n s ->
    exists scr' st',
      until_loop (n + fuel) ignored method message end_time scr st s
      = until_loop fuel ignored method message end_time scr' st'
          (poll_start method n s).
Proof.
  induction n as [|n IH]; intros scr st s Hw.
  - now exists scr, st.
  - destruct (waiting_next _ _ _ _ _ Hw) as (Hgo & Hlate & Hw').
    rewrite poll_start_S. cbn [Nat.add until_loop].
    destruct (method (browser s)) as [[r w] dt] eqn:Hm.
    destruct (after_poll_eq _ _ _ _ _ Hm) as [Ha Hr]. rewrite Ha in Hlate, Hw' |- *.
    rewrite Hr in Hgo.
    destruct r as [e | [v|]]; cbn [goes_on] in Hgo.
    + rewrite Hgo, Hlate. apply IH, Hw'.
    + discriminate Hgo.
    + rewrite Hlate. apply IH, Hw'.
Qed.

(** A wait that is on at poll [n] has a poll left for it. *)
Lemma waiting_polls {V : Type} (ignored : list exn_class) (method : ext (option V))
    (timeout : N) (n : nat) (s : state) :
  waiting ignored method (clock s + 1000 * timeout) n s ->
  exists fuel, max_polls timeout = n + S fuel.
Proof.
  intros Hw. unfold max_polls.
  exists (N.to_nat (1000 * timeout / POLL_FREQUENCY) - n).
  assert (Hn : n <= N.to_nat (1000 * timeout / POLL_FREQUENCY)).
  { destruct n as [|n]; [apply Nat.le_0_l |].
    destruct (Hw n (Nat.lt_succ_diag_r n)) as [_ Hc].
    pose proof (clock_poll_start method (S n) s) as Hp.
    unfold POLL_FREQUENCY in *.
    assert (N.of_nat (S n) <= 1000 * timeout / 500)%N
      by (apply N.div_le_lower_bound; lia).
    lia. }
  revert Hn. generalize (N.to_nat (1000 * timeout / POLL_FREQUENCY)). intros q Hn.
  lia.
Qed.

Lemma until_waiting {V : Type} (wait : WebDriverWait)
    (method : search_context WebElement -> ext (option V)) (message : string)
    (s : state) (n : nat) :
  waiting (wait_ignored wait) (method (wait_driver wait))
    (clock s + 1000 * wait_timeout wait) n s ->
  exists fuel scr st,
    until wait method message s
    = until_loop (S fuel) (wait_ignored wait) (method (wait_driver wait)) message
        (clock s + 1000 * wait_timeout wait) scr st
        (poll_start (method (wait_driver wait)) n s).
Proof.
  intros Hw. destruct (waiting_polls _ _ _ _ _ Hw) as [fuel Hf].
  unfold until. rewrite Hf.
  destruct (until_loop_waiting (wait_ignored wait) (method (wait_driver wait))
              message _ (S fuel) n None None s Hw) as (scr & st & E).
  now exists fuel, scr, st.
Qed.

(** The value a poll answers while the wait is on is what the wait
    returns, in the state that poll ends in. *)
Lemma until_returns_at {V : Type} (wait : WebDriverWait)
    (method : search_context WebElement -> ext (option V)) (message : string)
    (s : state) (n : nat) (v : V) (w : W) (dt : N) :
  waiting (wait_ignored wait) (method (wait_driver wait))
    (clock s + 1000 * wait_timeout wait) n s ->
  method (wait_driver wait) (browser (poll_start (method (wait_driver wait)) n s))
  = (inr (Some v), w, dt) ->
  until wait method message s
  = (Return v,
     mkState w (clock (poll_start (method (wait_driver wait)) n s) + dt)
       (sleeps s ++ repeat POLL_FREQUENCY n)).
Proof.
  intros Hw Hm. destruct (until_waiting wait method message s n Hw)
    as (fuel & scr & st & ->).
  cbn [until_loop]. rewrite Hm. now rewrite sleeps_poll_start.
Qed.

(** An exception that the wait does not ignore leaves the wait from the
    poll that raised it. *)
Lemma until_raises_at {V : Type} (wait : WebDriverWait)
    (method : search_context WebElement -> ext (option V)) (message : string)
    (s : state) (n : nat) (e : exn) (w : W) (dt : N) :
  waiting (wait_ignored wait) (method (wait_driver wait))
    (clock s + 1000 * wait_timeout wait) n s ->
  method (wait_driver wait) (browser (poll_start (method (wait_driver wait)) n s))
  = (inl e, w, dt) ->
  caught_by (wait_ignored wait) e = false ->
  until wait method message s
  = (Raise e,
     mkState w (clock (poll_start (method (wait_driver wait)) n s) + dt)
       (sleeps s ++ repeat POLL_FREQUENCY n)).
Proof.
  intros Hw Hm Hc. destruct (until_waiting wait method message s n Hw)
    as (fuel & scr & st & ->).
  cbn [until_loop]. rewrite Hm, Hc. now rewrite sleeps_poll_start.
Qed.

(** When the sleep after a poll that raised an ignored exception ends past
    the deadline, the wait raises [TimeoutException] with its message and
    the [screen] and [stacktrace] of that exception. *)
Lemma until_times_out_at {V : Type} (wait : WebDriverWait)
    (method : search_context WebElement -> ext (option V)) (message : string)
    (s : state) (n : nat) (e : exn) (w : W) (dt : N) :
  waiting (wait_ignored wait) (method (wait_driver wait))
    (clock s + 1000 * wait_timeout wait) n s ->
  method (wait_driver wait) (browser (poll_start (method (wait_driver wait)) n s))
  = (inl e, w, dt) ->
  caught_by (wait_ignored wait) e = true ->
  (clock s + 1000 * wait_timeout wait
   < clock (poll_start (method (wait_driver wait)) (S n) s))%N ->
  until wait method message s
  = (Raise (mkExn TimeoutException message (screen e) (stacktrace e)),
     poll_start (method (wait_driver wait)) (S n) s).
Proof.
  intros Hw Hm Hc Hlate. destruct (until_waiting wait method message s n Hw)
    as (fuel & scr & st & ->).
  rewrite poll_start_next in *.
  destruct (after_poll_eq _ _ _ _ _ Hm) as [Ha _]. rewrite Ha in *.
  apply N.ltb_lt in Hlate.
  cbn [until_loop]. now rewrite Hm, Hc, Hlate.
Qed.

End WaitFacts.

(** ** The retry loop *)

Section RetryFacts.
Context {B : Browser}.

Lemma retry_internal_pass {A : Type} (f : M A) (exceptions : list exn_class)
    (n : nat) (delay : N) (s s1 : state) (o : outcome A) :
  f s = (o, s1) ->
  (forall e, o = Raise e -> caught_by exceptions e = false) ->
  retry_internal f exceptions n delay s = (o, s1).
Proof.
  intros H Hc. destruct n; cbn; rewrite H;
    (destruct o as [a|e|]; [reflexivity | now rewrite (Hc e eq_refl) | reflexivity]).
Qed.

Lemma retry_internal_again {A : Type} (f : M A) (exceptions : list exn_class)
    (n : nat) (delay : N) (s s1 : state) (e : exn) :
  f s = (Raise e, s1) ->
  caught_by exceptions e = true ->
  retry_internal f exceptions (S n) delay s
  = retry_internal f exceptions n delay (do_sleep delay s1).
Proof. intros H Hc. cbn [retry_internal]. now rewrite H, Hc. Qed.

Lemma retry_internal_last {A : Type} (f : M A) (exceptions : list exn_class)
    (delay : N) (s s1 : state) (e : exn) :
  f s = (Raise e, s1) ->
  retry_internal f exceptions 0 delay s = (Raise e, s1).
Proof. intros H. cbn. rewrite H. now destruct (caught_by exceptions e). Qed.

(** A body that never raises a listed exception is run once. *)
Lemma retry_internal_never_caught {A : Type} (f : M A)
    (exceptions : list exn_class) (delay : N) :
  (forall s e s1, f s = (Raise e, s1) -> caught_by exceptions e = false) ->
  forall n s, retry_internal f exceptions n delay s = f s
              /\ retry_attempts f exceptions n delay s = 1.
Proof.
  intros Hf n s. destruct (f s) as [o s1] eqn:E.
  split.
  - apply retry_internal_pass; [exact E |].
    intros e ->. exact (Hf _ _ _ E).
  - destruct n; cbn; rewrite E; destruct o as [a|e|]; try reflexivity;
      now rewrite (Hf _ _ _ E).
Qed.

(** At most [tries] calls are made. *)
Lemma retry_attempts_le {A : Type} (f : M A) (exceptions : list exn_class)
    (delay : N) :
  forall n s, 1 <= retry_attempts f exceptions n delay s <= S n.
Proof.
  induction n as [|n IH]; intros s; cbn [retry_attempts];
    destruct (f s) as [[a|e|] s1]; try lia;
    destruct (caught_by exceptions e); try lia.
  specialize (IH (do_sleep delay s1)). lia.
Qed.

(** An exception that leaves the loop is the one the last call raised, and
    the loop ends in the state that call ended in. *)
Lemma retry_internal_raises_last {A : Type} (f : M A)
    (exceptions : list exn_class) (delay : N) :
  forall n s e s', retry_internal f exceptions n delay s = (Raise e, s') ->
                   exists s0, f s0 = (Raise e, s').
Proof.
  induction n as [|n IH]; intros s e s' H; cbn [retry_internal] in H;
    destruct (f s) as [[a|e0|] s1] eqn:E; try discriminate.
  - exists s. destruct (caught_by exceptions e0); now rewrite E, H.
  - destruct (caught_by exceptions e0).
    + exact (IH _ _ _ H).
    + exists s. now rewrite E, H.
Qed.

(** When every try raises a listed exception, the last one leaves the loop
    after [S n] calls. *)
Lemma retry_internal_exhausted {A : Type} (f : M A)
    (exceptions : list exn_class) (delay : N) :
  (forall s, exists e s1, f s = (Raise e, s1) /\ caught_by exceptions e = true) ->
  forall n s, retry_attempts f exceptions n delay s = S n
              /\ exists e s', retry_internal f exceptions n delay s = (Raise e, s')
                              /\ caught_by exceptions e = true.
Proof.
  intros Hf. induction n as [|n IH]; intros s;
    destruct (Hf s) as (e & s1 & E & Hc); cbn [retry_internal retry_attempts];
    rewrite E, Hc.
  - split; [reflexivity |]. now exists e, s1.
  - destruct (IH (do_sleep delay s1)) as [Hn Hr]. split; [now rewrite Hn | exact Hr].
Qed.

Lemma total_ret {A : Type} (a : A) : total (ret a).
Proof. intros s. discriminate. Qed.

Lemma total_raise {A : Type} (e : exn) : total (@raise _ A e).
Proof. intros s. discriminate. Qed.

Lemma total_pure {A : Type} (r : exn + A) : total (pure r).
Proof. destruct r; [apply total_raise | apply total_ret]. Qed.

Lemma total_call {A : Type} (op : ext A) : total (call op).
Proof.
  intros s. unfold call. destruct (op (browser s)) as [[[e|a] w] dt]; discriminate.
Qed.

Lemma total_sleep (ms : N) : total (sleep ms).
Proof. intros s. discriminate. Qed.

Lemma total_bind {A C : Type} (m : M A) (k : A -> M C) :
  total m -> (forall a, total (k a)) -> total (bind m k).
Proof.
  intros Hm Hk s. unfold bind. specialize (Hm s).
  destruct (m s) as [[a|e|] s1]; [apply Hk | discriminate | now elim Hm].
Qed.

Lemma handler_for_total {A : Type}
    (clauses : list (list exn_class * (exn -> M A))) (e : exn) (h : exn -> M A) :
  Forall (fun c => forall e, total (snd c e)) clauses ->
  handler_for clauses e = Some h -> total (h e).
Proof.
  induction 1 as [|[classes h0] rest H0 _ IH]; cbn; [discriminate |].
  destruct (caught_by classes e); [| exact IH].
  intros [= <-]. apply H0.
Qed.

Lemma total_try_except {A : Type} (m : M A)
    (clauses : list (list exn_class * (exn -> M A))) :
  total m -> Forall (fun c => forall e, total (snd c e)) clauses ->
  total (try_except m clauses).
Proof.
  intros Hm Hc s. unfold try_except. specialize (Hm s).
  destruct (m s) as [[a|e|] s1]; [discriminate | | now elim Hm].
  destruct (handler_for clauses e) as [h|] eqn:E; [| discriminate].
  exact (handler_for_total _ _ _ Hc E s1).
Qed.

Lemma total_until {V : Type} (wait : WebDriverWait)
    (method : search_context WebElement -> ext (option V)) (message : string) :
  total (until wait method message).
Proof. intros s. apply until_total. Qed.

Lemma total_retry {A : Type} (exceptions : list exn_class) (tries : positive)
    (delay : N) (f : M A) :
  total f -> total (retry exceptions tries delay f).
Proof.
  intros Hf. unfold retry. generalize (Pos.to_nat tries - 1) as n.
  induction n as [|n IH]; intros s; cbn [retry_internal]; specialize (Hf s);
    destruct (f s) as [[a|e|] s1]; try discriminate; try (now elim Hf);
    destruct (caught_by exceptions e); try discriminate.
  apply IH.
Qed.

End RetryFacts.

(** ** The page methods *)

Section PageFacts.
Context {B : Browser}.

(** [find_element] on a locator that resolves: the wait, with every error
    wrapped. *)
Lemma find_element_resolved (locator : string) (by_ : By.t * string)
    (timeout : N) (s : state) :
  get_by locator = inr by_ ->
  find_element locator timeout s
  = match until (new_wait Driver timeout []) (presence_of_element_located by_)
            (find_message locator timeout) s with
    | (Raise e, s1) => (Raise (find_error locator e), s1)
    | other => other
    end.
Proof.
  intros H. unfold find_element, try_except, bind, pure. rewrite H. cbn [ret].
  destruct (until _ _ _ s) as [[el|e|] s1]; reflexivity.
Qed.

(** [find_element] on a locator that the resolver rejects. *)
Lemma find_element_unresolved (locator : string) (e : exn) (timeout : N)
    (s : state) :
  get_by locator = inl e ->
  find_element locator timeout s = (Raise (find_error locator e), s).
Proof.
  intros H. unfold find_element, try_except, bind, pure. rewrite H. reflexivity.
Qed.

(** Whatever goes wrong in [find_element], a plain [Exception] comes out. *)
Lemma find_element_raises_Exception (locator : string) (timeout : N)
    (s s' : state) (e : exn) :
  find_element locator timeout s = (Raise e, s') ->
  exists e0, e = find_error locator e0.
Proof.
  unfold find_element, try_except.
  match goal with |- context [bind ?m ?k s] => destruct (bind m k s) as [[el|e0|] s1] end;
    cbn; intros [= <- <-]. now exists e0.
Qed.

(** [wait_till_element_is_present] on a locator that resolves: the wait
    itself, with no message. *)
Lemma wait_till_element_is_present_resolved (locator : string)
    (by_ : By.t * string) (timeout : N) (s : state) :
  get_by locator = inr by_ ->
  wait_till_element_is_present locator timeout s
  = until (new_wait Driver timeout []) (presence_of_element_located by_) "" s.
Proof.
  intros H. unfold wait_till_element_is_present, try_except, bind, pure.
  rewrite H. cbn [ret].
  destruct (until _ _ _ s) as [[el|e|] s1]; reflexivity.
Qed.


(** *** Every method ends *)

Ltac total_steps :=
  repeat first
    [ apply total_try_except | apply total_bind | apply total_until
    | apply total_retry | apply total_pure | apply total_ret
    | apply total_raise | apply total_call | apply total_sleep
    | apply Forall_cons | apply Forall_nil | intro ].

Lemma find_element_total (locator : string) (timeout : N) :
  total (find_element locator timeout).
Proof. unfold find_element. total_steps. Qed.

Lemma wait_till_element_is_present_total (locator : string) (timeout : N) :
  total (wait_till_element_is_present locator timeout).
Proof. unfold wait_till_element_is_present. total_steps. Qed.

Lemma wait_till_element_is_visible_total (locator : string) (timeout : N) :
  total (wait_till_element_is_visible locator timeout).
Proof. unfold wait_till_element_is_visible. total_steps. Qed.

Lemma click_body_total (locator : locator_arg) : total (click_body locator).
Proof.
  unfold click_body. apply total_bind.
  - destruct locator; [apply total_bind; [apply find_element_total | intro; apply total_ret]
                      | apply total_ret | apply total_ret].
  - intros [element|]; [| apply total_raise].
    apply total_try_except; [apply total_call |].
    apply Forall_cons; [| apply Forall_nil].
    intros e; cbn. destruct (PyStr.contains _ _); apply total_raise.
Qed.

Lemma click_total (locator : locator_arg) : total (click locator).
Proof. apply total_retry, click_body_total. Qed.

Lemma set_field_total (locator element_value : string) :
  total (set_field locator element_value).
Proof.
  apply total_retry. unfold set_field_body.
  apply total_bind; [apply find_element_total |]. total_steps.
Qed.

Lemma get_attribute_total (locator : WebElement + string) (attribute : string) :
  total (get_attribute locator attribute).
Proof.
  apply total_retry. unfold get_attribute_body. destruct locator.
  - apply total_call.
  - apply total_bind; [apply find_element_total | intro; apply total_call].
Qed.

Lemma is_element_present_total (locator : string) (timeout : N) :
  total (is_element_present locator timeout).
Proof. unfold is_element_present. total_steps. Qed.

Lemma is_element_displayed_total (locator : string) :
  total (is_element_displayed locator).
Proof.
  unfold is_element_displayed. apply total_bind.
  - apply total_try_except.
    + apply total_bind; [apply find_element_total | intro; apply total_ret].
    + total_steps.
  - intros [element|]; [apply total_call | apply total_ret].
Qed.

(** *** [set_field] *)

(** Every error of [set_field]'s body is a plain [Exception]: the lookup
    wraps its errors, and the [except Exception] clause wraps those of the
    element calls. *)
Lemma set_field_body_raises_Exception (locator element_value : string)
    (s s' : state) (e : exn) :
  set_field_body locator element_value s = (Raise e, s') -> cls e = Exception.
Proof.
  unfold set_field_body, bind at 1.
  destruct (find_element locator FIND_TIMEOUT s) as [[webelement|e0|] s1] eqn:Hf.
  - unfold bind at 1, try_except.
    match goal with |- context [bind ?m ?k s1] => destruct (bind m k s1) as [[u|e1|] s2] end;
      cbn; intros [= <- <-]; reflexivity.
  - intros [= <- <-].
    destruct (find_element_raises_Exception _ _ _ _ _ Hf) as [e1 ->]. reflexivity.
  - discriminate.
Qed.

(** So the decorator of [set_field] never sees a
    [StaleElementReferenceException]: the body is run once, whatever it
    does. *)
Lemma set_field_runs_once (locator element_value : string) (s : state) :
  set_field locator element_value s = set_field_body locator element_value s
  /\ retry_attempts (set_field_body locator element_value)
       [StaleElementReferenceException] (Pos.to_nat RETRY_TRIES - 1) RETRY_DELAY s = 1.
Proof.
  unfold set_field, retry. apply retry_internal_never_caught.
  intros s0 e s1 H. apply set_field_body_raises_Exception in H.
  unfold caught_by, isinstance; cbn. now rewrite H.
Qed.

(** *** [click] *)

Lemma click_body_element (element : WebElement) (s : state) :
  click_body (LocElement element) s
  = try_except (call (element_click element))
      [([Exception],
        fun e => if PyStr.contains "is not clickable" (str_of_exn e)
                 then raise (new_exn NotClickableException "")
                 else raise e)] s.
Proof. reflexivity. Qed.

Lemma click_body_element_error (element : WebElement) (s : state) (e : exn)
    (w : W) (dt : N) :
  element_click element (browser s) = (inl e, w, dt) ->
  click_body (LocElement element) s
  = (Raise (click_error e), mkState w (clock s + dt) (sleeps s)).
Proof.
  intros H. rewrite click_body_element. unfold try_except, call, click_error.
  rewrite H. cbn. now destruct (PyStr.contains _ _).
Qed.

Lemma click_body_element_ok (element : WebElement) (s : state) (w : W) (dt : N) :
  element_click element (browser s) = (inr tt, w, dt) ->
  click_body (LocElement element) s
  = (Return tt, mkState w (clock s + dt) (sleeps s)).
Proof.
  intros H. rewrite click_body_element. unfold try_except, call.
  now rewrite H.
Qed.



Lemma caught_by_click_error (e : exn) :
  caught_by CLICK_RETRIED (click_error e)
  = PyStr.contains "is not clickable" (str_of_exn e) || caught_by CLICK_RETRIED e.
Proof.
  unfold click_error. now destruct (PyStr.contains _ _).
Qed.


(** A click on an element that is refused as not clickable twice and
    accepted the third time succeeds, after three calls of
    [element.click()] and two sleeps of two seconds. *)
Lemma click_third_attempt (element : WebElement) (s : state) (e0 e1 : exn)
    (w1 w2 w3 : W) (dt1 dt2 dt3 : N) :
  element_click element (browser s) = (inl e0, w1, dt1) ->
  element_click element w1 = (inl e1, w2, dt2) ->
  element_click element w2 = (inr tt, w3, dt3) ->
  PyStr.contains "is not clickable" (str_of_exn e0) = true ->
  PyStr.contains "is not clickable" (str_of_exn e1) = true ->
  click (LocElement element) s
  = (Return tt,
     mkState w3 (clock s + dt1 + RETRY_DELAY + dt2 + RETRY_DELAY + dt3)
       (sleeps s ++ [RETRY_DELAY; RETRY_DELAY]))
  /\ retry_attempts (click_body (LocElement element)) CLICK_RETRIED
       (Pos.to_nat RETRY_TRIES - 1) RETRY_DELAY s = 3.
Proof.
  intros H1 H2 H3 Hc0 Hc1. unfold click, retry.
  change (Pos.to_nat RETRY_TRIES - 1) with 4.
  pose proof (click_body_element_error element s e0 w1 dt1 H1) as B1.
  set (s1 := do_sleep RETRY_DELAY (mkState w1 (clock s + dt1) (sleeps s))).
  pose proof (click_body_element_error element s1 e1 w2 dt2 H2) as B2.
  set (s2 := do_sleep RETRY_DELAY (mkState w2 (clock s1 + dt2) (sleeps s1))).
  pose proof (click_body_element_ok element s2 w3 dt3 H3) as B3.
  assert (C0 : caught_by CLICK_RETRIED (click_error e0) = true)
    by (rewrite caught_by_click_error, Hc0; reflexivity).
  assert (C1 : caught_by CLICK_RETRIED (click_error e1) = true)
    by (rewrite caught_by_click_error, Hc1; reflexivity).
  split.
  - rewrite (retry_internal_again _ _ _ _ _ _ _ B1 C0).
    fold s1. rewrite (retry_internal_again _ _ _ _ _ _ _ B2 C1).
    fold s2. rewrite (retry_internal_pass _ _ _ _ _ _ _ B3) by discriminate.
    subst s2 s1. cbn [do_sleep browser clock sleeps].
    now rewrite <- app_assoc.
  - cbn [retry_attempts]. rewrite B1, C0. fold s1. rewrite B2, C1. fold s2.
    now rewrite B3.
Qed.

End PageFacts.

(** ** The decorator-level retry *)

Section RetryClaims.
Context {B : Browser}.


(** The classes the decorator of [click] retries. *)
Lemma caught_by_CLICK_RETRIED (e : exn) :
  caught_by CLICK_RETRIED e = true
  <-> isinstance e StaleElementReferenceException = true
      \/ isinstance e ElementNotVisibleException = true
      \/ isinstance e NotClickableException = true.
Proof.
  unfold caught_by, CLICK_RETRIED. cbn [existsb].
  rewrite !orb_true_iff. intuition discriminate.
Qed.

(** [click] and [get_attribute] make at most five tries, and an error
    that leaves them is the one their last try raised. *)
Lemma click_tries_bounded (locator : locator_arg) (s : state) :
  1 <= retry_attempts (click_body locator) CLICK_RETRIED
         (Pos.to_nat RETRY_TRIES - 1) RETRY_DELAY s <= 5.
Proof. apply retry_attempts_le. Qed.

Lemma get_attribute_tries_bounded (locator : WebElement + string)
    (attribute : string) (s : state) :
  1 <= retry_attempts (get_attribute_body locator attribute)
         [StaleElementReferenceException] (Pos.to_nat RETRY_TRIES - 1) RETRY_DELAY s <= 5.
Proof. apply retry_attempts_le. Qed.

Lemma click_raises_last (locator : locator_arg) (s s' : state) (e : exn) :
  click locator s = (Raise e, s') ->
  exists s0, click_body locator s0 = (Raise e, s').
Proof. apply retry_internal_raises_last. Qed.

(** When [element.click()] is refused as not clickable every time, five
    calls are made and [NotClickableException] leaves [click]. *)
Lemma click_gives_up_after_five (element : WebElement) :
  (forall w, exists e w' dt,
      element_click element w = (inl e, w', dt)
      /\ PyStr.contains "is not clickable" (str_of_exn e) = true) ->
  forall s,
    retry_attempts (click_body (LocElement element)) CLICK_RETRIED
      (Pos.to_nat RETRY_TRIES - 1) RETRY_DELAY s = 5
    /\ exists s', click (LocElement element) s
                  = (Raise (new_exn NotClickableException ""), s').
Proof.
  intros H s.
  assert (Hf : forall s0, exists e s1,
             click_body (LocElement element) s0 = (Raise e, s1)
             /\ caught_by CLICK_RETRIED e = true).
  { intros s0. destruct (H (browser s0)) as (e & w' & dt & He & Hc).
    exists (click_error e), (mkState w' (clock s0 + dt) (sleeps s0)).
    split; [exact (click_body_element_error _ _ _ _ _ He) |].
    rewrite caught_by_click_error, Hc. reflexivity. }
  destruct (retry_internal_exhausted _ CLICK_RETRIED RETRY_DELAY Hf
              (Pos.to_nat RETRY_TRIES - 1) s) as [Hn (e & s' & Hr & _)].
  split; [exact Hn |]. exists s'. unfold click, retry. rewrite Hr.
  destruct (retry_internal_raises_last _ _ _ _ _ _ _ Hr) as [s0 Hb].
  destruct (H (browser s0)) as (e0 & w' & dt & He & Hc).
  rewrite (click_body_element_error _ _ _ _ _ He) in Hb.
  unfold click_error in Hb. rewrite Hc in Hb. now injection Hb as <- _.
Qed.

End RetryClaims.



(** The scenario of the specification: the element is refused as not
    clickable twice and accepted the third time. *)
Example click_blocked_twice_succeeds :
  click (B := scripted click_blocked_twice)
    (LocElement (B := scripted click_blocked_twice) 7) (start click_blocked_twice)
  = (Return tt, scripted_state click_blocked_twice 3 4300 [2000%N; 2000%N])
  /\ retry_attempts
       (click_body (B := scripted click_blocked_twice)
          (LocElement (B := scripted click_blocked_twice) 7))
       CLICK_RETRIED (Pos.to_nat RETRY_TRIES - 1) RETRY_DELAY (start click_blocked_twice)
     = 3.
Proof.
  exact (click_third_attempt (B := scripted click_blocked_twice) 7
           (start click_blocked_twice) not_clickable_error not_clickable_error
           1 2 3 100%N 100%N 100%N eq_refl eq_refl eq_refl eq_refl eq_refl).
Qed.

(** C5 fails on [set_field]. Its decorator lists
    [StaleElementReferenceException], but the body turns every error into a
    plain [Exception] before the decorator sees it, so on every browser
    [set_field] is its body run once. On a browser where the element goes
    stale once after the lookup, [set_field] makes one try, does not sleep
    the two seconds and raises, although a second try would have returned
    the element; [get_attribute] on the same browser is retried and
    succeeds. *)
Theorem set_field_stale_not_retried :
  (forall (B : Browser) (locator element_value : string) (s : state),
      set_field locator element_value s = set_field_body locator element_value s
      /\ retry_attempts (set_field_body locator element_value)
           [StaleElementReferenceException] (Pos.to_nat RETRY_TRIES - 1)
           RETRY_DELAY s = 1)
  /\ set_field (B := scripted stale_after_lookup) "id@@name" "bob"
       (start stale_after_lookup)
     = (Raise (new_exn Exception
                 ("Could not write on the the element <WebElement 7> due to "
                  ++ str_of_exn stale_error)),
        scripted_state stale_after_lookup 2 200 [])
  /\ fst (set_field_body (B := scripted stale_after_lookup) "id@@name" "bob"
            (do_sleep RETRY_DELAY (scripted_state stale_after_lookup 2 200 [])))
     = Return 7
  /\ get_attribute (B := scripted stale_after_lookup) (inr "id@@name") "href"
       (start stale_after_lookup)
     = (Return (Some "value"), scripted_state stale_after_lookup 4 2400 [2000%N]).
Proof.
  split; [intros B locator element_value s; apply set_field_runs_once |].
  repeat split.
Qed.



(** ** The waits of the page class *)

Section WaitClaims.
Context {B : Browser}.

(** *** What a poll of the conditions answers *)

Lemma presence_found (by_ : By.t * string) (driver : search_context WebElement)
    (w w1 : W) (element : WebElement) (dt : N) :
  find_element_in driver (fst by_) (snd by_) w = (inr element, w1, dt) ->
  presence_of_element_located by_ driver w = (inr (Some element), w1, dt).
Proof. intros H. unfold presence_of_element_located. now rewrite H. Qed.

Lemma presence_error_raised (by_ : By.t * string) (driver : search_context WebElement)
    (w w1 : W) (e : exn) (dt : N) :
  find_element_in driver (fst by_) (snd by_) w = (inl e, w1, dt) ->
  presence_of_element_located by_ driver w = (inl e, w1, dt).
Proof. intros H. unfold presence_of_element_located. now rewrite H. Qed.

Lemma presence_answer (by_ : By.t * string) (driver : search_context WebElement)
    (w w1 : W) (r : exn + option WebElement) (dt : N) :
  presence_of_element_located by_ driver w = (r, w1, dt) ->
  match r with
  | inr (Some element) =>
      find_element_in driver (fst by_) (snd by_) w = (inr element, w1, dt)
  | inr None => False
  | inl e => find_element_in driver (fst by_) (snd by_) w = (inl e, w1, dt)
  end.
Proof.
  unfold presence_of_element_located.
  destruct (find_element_in driver (fst by_) (snd by_) w) as [[[e|element] w2] dt2];
    now intros [= <- <- <-].
Qed.

Lemma caught_by_default (driver : search_context WebElement) (timeout : N)
    (e : exn) :
  caught_by (wait_ignored (new_wait driver timeout [])) e
  = isinstance e NoSuchElementException.
Proof. unfold caught_by. cbn [new_wait wait_ignored IGNORED_EXCEPTIONS app existsb].
       apply orb_false_r. Qed.



(** *** The wait for presence, poll by poll *)

(** The element that poll [n] finds, while the wait is on, is returned. *)
Lemma presence_wait_returns (by_ : By.t * string) (message : string)
    (timeout : N) (s : state) (n : nat) (element : WebElement) (w : W) (dt : N) :
  waiting [NoSuchElementException] (presence_of_element_located by_ Driver)
    (clock s + 1000 * timeout) n s ->
  find_element_in Driver (fst by_) (snd by_) (browser (presence_poll by_ n s))
  = (inr element, w, dt) ->
  until (new_wait Driver timeout []) (presence_of_element_located by_) message s
  = (Return element,
     mkState w (clock (presence_poll by_ n s) + dt)
       (sleeps s ++ repeat POLL_FREQUENCY n)).
Proof.
  intros Hw Hf.
  apply (until_returns_at (new_wait Driver timeout [])
           (presence_of_element_located by_) message s n element w dt Hw).
  exact (presence_found _ _ _ _ _ _ Hf).
Qed.

(** An error of poll [n] that is not a [NoSuchElementException] leaves the
    wait. *)
Lemma presence_wait_raises (by_ : By.t * string) (message : string)
    (timeout : N) (s : state) (n : nat) (e : exn) (w : W) (dt : N) :
  waiting [NoSuchElementException] (presence_of_element_located by_ Driver)
    (clock s + 1000 * timeout) n s ->
  find_element_in Driver (fst by_) (snd by_) (browser (presence_poll by_ n s))
  = (inl e, w, dt) ->
  isinstance e NoSuchElementException = false ->
  until (new_wait Driver timeout []) (presence_of_element_located by_) message s
  = (Raise e,
     mkState w (clock (presence_poll by_ n s) + dt)
       (sleeps s ++ repeat POLL_FREQUENCY n)).
Proof.
  intros Hw Hf Hn.
  apply (until_raises_at (new_wait Driver timeout [])
           (presence_of_element_located by_) message s n e w dt Hw).
  - exact (presence_error_raised _ _ _ _ _ _ Hf).
  - now rewrite caught_by_default.
Qed.

(** When the sleep after poll [n], which did not find the element, ends
    past the deadline, the wait raises [TimeoutException]. *)
Lemma presence_wait_times_out (by_ : By.t * string) (message : string)
    (timeout : N) (s : state) (n : nat) (e : exn) (w : W) (dt : N) :
  waiting [NoSuchElementException] (presence_of_element_located by_ Driver)
    (clock s + 1000 * timeout) n s ->
  find_element_in Driver (fst by_) (snd by_) (browser (presence_poll by_ n s))
  = (inl e, w, dt) ->
  isinstance e NoSuchElementException = true ->
  (clock s + 1000 * timeout < clock (presence_poll by_ (S n) s))%N ->
  until (new_wait Driver timeout []) (presence_of_element_located by_) message s
  = (Raise (mkExn TimeoutException message (screen e) (stacktrace e)),
     presence_poll by_ (S n) s).
Proof.
  intros Hw Hf Hn Hlate.
  apply (until_times_out_at (new_wait Driver timeout [])
           (presence_of_element_located by_) message s n e w dt Hw).
  - exact (presence_error_raised _ _ _ _ _ _ Hf).
  - now rewrite caught_by_default.
  - exact Hlate.
Qed.

(** C7, as the code has it. Take a locator that resolves and a wait that is
    still on when poll [n] starts: the [n] lookups before it raised
    [NoSuchElementException] and the sleep after each ended by the deadline,
    the start plus the timeout. If the lookup of poll [n] finds an element,
    [wait_till_element_is_present] and [find_element] return that element,
    in the state that lookup ends in, after [n] sleeps of the poll
    interval. If it raises [NoSuchElementException] and the sleep after
    it ends past the deadline, [wait_till_element_is_present] raises
    [TimeoutException] with an empty message, and [find_element] raises a
    plain [Exception] around a [TimeoutException] whose message is "Timed
    out after ... seconds while waiting to find the element with locator
    ...". If it raises another error, [wait_till_element_is_present] raises
    that error and [find_element] a plain [Exception] around it. And
    every run ends in one of these three ways. *)
Theorem wait_for_presence_ends (locator : string) (by_ : By.t * string)
    (timeout : N) (s : state) (n : nat) :
  get_by locator = inr by_ ->
  waiting [NoSuchElementException] (presence_of_element_located by_ Driver)
    (clock s + 1000 * timeout) n s ->
  (forall (element : WebElement) (w : W) (dt : N),
      find_element_in Driver (fst by_) (snd by_) (browser (presence_poll by_ n s))
      = (inr element, w, dt) ->
      wait_till_element_is_present locator timeout s
      = (Return element,
         mkState w (clock (presence_poll by_ n s) + dt)
           (sleeps s ++ repeat POLL_FREQUENCY n))
      /\ find_element locator timeout s
         = (Return element,
            mkState w (clock (presence_poll by_ n s) + dt)
              (sleeps s ++ repeat POLL_FREQUENCY n)))
  /\ (forall (e : exn) (w : W) (dt : N),
      find_element_in Driver (fst by_) (snd by_) (browser (presence_poll by_ n s))
      = (inl e, w, dt) ->
      isinstance e NoSuchElementException = true ->
      (clock s + 1000 * timeout < clock (presence_poll by_ (S n) s))%N ->
      wait_till_element_is_present locator timeout s
      = (Raise (mkExn TimeoutException "" (screen e) (stacktrace e)),
         presence_poll by_ (S n) s)
      /\ find_element locator timeout s
         = (Raise (find_error locator
                     (mkExn TimeoutException (find_message locator timeout)
                        (screen e) (stacktrace e))),
            presence_poll by_ (S n) s))
  /\ (forall (e : exn) (w : W) (dt : N),
      find_element_in Driver (fst by_) (snd by_) (browser (presence_poll by_ n s))
      = (inl e, w, dt) ->
      isinstance e NoSuchElementException = false ->
      wait_till_element_is_present locator timeout s
      = (Raise e,
         mkState w (clock (presence_poll by_ n s) + dt)
           (sleeps s ++ repeat POLL_FREQUENCY n))
      /\ find_element locator timeout s
         = (Raise (find_error locator e),
            mkState w (clock (presence_poll by_ n s) + dt)
              (sleeps s ++ repeat POLL_FREQUENCY n)))
  /\ until_ends [NoSuchElementException] (presence_of_element_located by_ Driver) ""
       (clock s + 1000 * timeout)
       (fst (wait_till_element_is_present locator timeout s))
       (snd (wait_till_element_is_present locator timeout s))
  /\ exists o,
      until_ends [NoSuchElementException] (presence_of_element_located by_ Driver)
        (find_message locator timeout) (clock s + 1000 * timeout) o
        (snd (find_element locator timeout s))
      /\ fst (find_element locator timeout s)
         = match o with
           | Return element => Return element
           | Raise e => Raise (find_error locator e)
           | OutOfFuel => OutOfFuel
           end.
Proof.
  intros H Hw.
  rewrite (wait_till_element_is_present_resolved _ _ _ _ H).
  rewrite (find_element_resolved _ _ _ _ H).
  split; [| split; [| split; [| split]]].
  - intros element w dt Hf.
    now rewrite !(presence_wait_returns _ _ _ _ _ _ _ _ Hw Hf).
  - intros e w dt Hf Hn Hlate.
    now rewrite !(presence_wait_times_out _ _ _ _ _ _ _ _ Hw Hf Hn Hlate).
  - intros e w dt Hf Hn.
    now rewrite !(presence_wait_raises _ _ _ _ _ _ _ _ Hw Hf Hn).
  - exact (until_spec (new_wait Driver timeout [])
             (presence_of_element_located by_) "" s).
  - pose proof (until_spec (new_wait Driver timeout [])
                  (presence_of_element_located by_)
                  (find_message locator timeout) s) as Hu.
    destruct (until _ _ _ s) as [o s1]. exists o. split.
    + destruct o; exact Hu.
    + destruct o; reflexivity.
Qed.

(** When no lookup ever finds the element, the wait ends with the
    [TimeoutException] without message, after the deadline. *)
Lemma wait_till_element_is_present_never_found (locator : string)
    (by_ : By.t * string) (timeout : N) (s : state) :
  get_by locator = inr by_ ->
  (forall w, exists e w' dt,
      find_element_in Driver (fst by_) (snd by_) w = (inl e, w', dt)
      /\ isinstance e NoSuchElementException = true) ->
  exists scr st s',
    wait_till_element_is_present locator timeout s
    = (Raise (mkExn TimeoutException "" scr st), s')
    /\ (clock s + 1000 * timeout < clock s')%N.
Proof.
  intros H Hnever.
  rewrite (wait_till_element_is_present_resolved _ _ _ _ H).
  pose proof (until_spec (new_wait Driver timeout [])
                (presence_of_element_located by_) "" s) as Hw.
  destruct (until _ _ _ s) as [o s'].
  cbn [fst snd new_wait wait_driver] in Hw.
  destruct Hw as [(v & w & dt & _ & Hm) | [(scr & st & -> & Hlate) | (e & w & dt & _ & Hm & Hc)]].
  - exfalso. apply presence_answer in Hm.
    destruct (Hnever w) as (e & w' & dt' & Hf & _). rewrite Hf in Hm.
    discriminate.
  - now exists scr, st, s'.
  - exfalso. apply presence_answer in Hm.
    destruct (Hnever w) as (e' & w' & dt' & Hf & Hcls). rewrite Hf in Hm.
    injection Hm as -> _ _.
    rewrite caught_by_default in Hc. now rewrite Hcls in Hc.
Qed.

(** *** The wait for visibility, poll by poll *)




(** *** The presence helpers *)

Lemma is_element_displayed_lookup (locator : string) (s : state) :
  is_element_displayed locator s
  = match find_element locator FIND_TIMEOUT s with
    | (Return found, s1) => call (element_is_displayed found) s1
    | (Raise _, s1) => (Return false, s1)
    | (OutOfFuel, s1) => (OutOfFuel, s1)
    end.
Proof.
  unfold is_element_displayed, bind at 1, try_except, bind.
  destruct (find_element locator FIND_TIMEOUT s) as [[found|e|] s1]; reflexivity.
Qed.

Lemma is_element_present_resolved (locator : string) (by_ : By.t * string)
    (timeout : N) (s : state) :
  get_by locator = inr by_ ->
  is_element_present locator timeout s
  = match until (new_wait Driver timeout [])
            (presence_of_element_located by_) "" s with
    | (Return _, s1) => (Return true, s1)
    | (Raise e, s1) =>
        if isinstance e TimeoutException
        then (Return false, s1)
        else (Raise (presence_error locator e), s1)
    | (OutOfFuel, s1) => (OutOfFuel, s1)
    end.
Proof.
  intros H. unfold is_element_present, try_except, bind, pure. rewrite H. cbn [ret].
  destruct (until _ _ _ s) as [[found|e|] s1]; try reflexivity.
  cbn [handler_for]. unfold caught_by at 1. cbn [existsb].
  rewrite orb_false_r.
  now destruct (isinstance e TimeoutException).
Qed.

Lemma is_element_present_unresolved (locator : string) (e : exn) (timeout : N)
    (s : state) :
  get_by locator = inl e ->
  is_element_present locator timeout s = (Raise (presence_error locator e), s).
Proof.
  intros H. destruct (get_by_rejects_only_tokens _ _ H) as (_ & _ & He).
  unfold is_element_present, try_except, bind, pure. rewrite H. now rewrite He.
Qed.

(** C9, as the code has it. On a locator that does not resolve,
    [is_element_present] raises a plain [Exception], while
    [is_element_displayed] and [is_child_element_present] answer [False].
    On a locator that resolves, with the wait still on when poll [n]
    starts: [is_element_present] answers [True] when the lookup of poll [n]
    finds the element; [False] when that lookup raises
    [NoSuchElementException] and the sleep after it ends past the deadline,
    and also when it raises an error that is itself a [TimeoutException];
    for any other error of the lookup it raises a plain [Exception].
    [is_element_displayed], whose wait lasts five seconds, answers what
    [element.is_displayed()] does (or raises what it raises) when the lookup
    of the poll finds the element, and [False] for every error of the lookup
    and for the timeout. The other way round: [is_element_present] answers
    [True] only when a lookup found the element, and [False] only past the
    deadline or for a [TimeoutException] of a lookup; [is_element_displayed]
    answers [True] only when [is_displayed()] did, and raises only what
    [is_displayed()] raised. *)
Theorem presence_helpers (locator : string) (timeout : N) (s : state) :
  (forall (e : exn) (element : WebElement),
      get_by locator = inl e ->
      is_element_present locator timeout s = (Raise (presence_error locator e), s)
      /\ is_element_displayed locator s = (Return false, s)
      /\ is_child_element_present element locator timeout s = (Return false, s))
  /\ (forall (by_ : By.t * string) (n : nat),
      get_by locator = inr by_ ->
      waiting [NoSuchElementException] (presence_of_element_located by_ Driver)
        (clock s + 1000 * timeout) n s ->
      (forall (element : WebElement) (w : W) (dt : N),
          find_element_in Driver (fst by_) (snd by_) (browser (presence_poll by_ n s))
          = (inr element, w, dt) ->
          is_element_present locator timeout s
          = (Return true,
             mkState w (clock (presence_poll by_ n s) + dt)
               (sleeps s ++ repeat POLL_FREQUENCY n)))
      /\ (forall (e : exn) (w : W) (dt : N),
          find_element_in Driver (fst by_) (snd by_) (browser (presence_poll by_ n s))
          = (inl e, w, dt) ->
          isinstance e NoSuchElementException = true ->
          (clock s + 1000 * timeout < clock (presence_poll by_ (S n) s))%N ->
          is_element_present locator timeout s
          = (Return false, presence_poll by_ (S n) s))
      /\ (forall (e : exn) (w : W) (dt : N),
          find_element_in Driver (fst by_) (snd by_) (browser (presence_poll by_ n s))
          = (inl e, w, dt) ->
          isinstance e NoSuchElementException = false ->
          is_element_present locator timeout s
          = (if isinstance e TimeoutException
             then Return false
             else Raise (presence_error locator e),
             mkState w (clock (presence_poll by_ n s) + dt)
               (sleeps s ++ repeat POLL_FREQUENCY n))))
  /\ (forall (by_ : By.t * string) (n : nat),
      get_by locator = inr by_ ->
      waiting [NoSuchElementException] (presence_of_element_located by_ Driver)
        (clock s + 1000 * FIND_TIMEOUT) n s ->
      (forall (element : WebElement) (w : W) (dt : N),
          find_element_in Driver (fst by_) (snd by_) (browser (presence_poll by_ n s))
          = (inr element, w, dt) ->
          is_element_displayed locator s
          = call (element_is_displayed element)
              (mkState w (clock (presence_poll by_ n s) + dt)
                 (sleeps s ++ repeat POLL_FREQUENCY n)))
      /\ (forall (e : exn) (w : W) (dt : N),
          find_element_in Driver (fst by_) (snd by_) (browser (presence_poll by_ n s))
          = (inl e, w, dt) ->
          isinstance e NoSuchElementException = true ->
          (clock s + 1000 * FIND_TIMEOUT < clock (presence_poll by_ (S n) s))%N ->
          is_element_displayed locator s = (Return false, presence_poll by_ (S n) s))
      /\ (forall (e : exn) (w : W) (dt : N),
          find_element_in Driver (fst by_) (snd by_) (browser (presence_poll by_ n s))
          = (inl e, w, dt) ->
          isinstance e NoSuchElementException = false ->
          is_element_displayed locator s
          = (Return false,
             mkState w (clock (presence_poll by_ n s) + dt)
               (sleeps s ++ repeat POLL_FREQUENCY n))))
  /\ (forall (s' : state),
      is_element_present locator timeout s = (Return true, s') ->
      exists by_ element w dt,
        get_by locator = inr by_
        /\ find_element_in Driver (fst by_) (snd by_) w = (inr element, browser s', dt))
  /\ (forall (s' : state),
      is_element_present locator timeout s = (Return false, s') ->
      (clock s + 1000 * timeout < clock s')%N
      \/ exists by_ e w dt,
           get_by locator = inr by_
           /\ find_element_in Driver (fst by_) (snd by_) w = (inl e, browser s', dt)
           /\ isinstance e TimeoutException = true)
  /\ (forall (s' : state),
      is_element_displayed locator s = (Return true, s') ->
      exists element w dt,
        element_is_displayed element w = (inr true, browser s', dt))
  /\ (forall (e : exn) (s' : state),
      is_element_displayed locator s = (Raise e, s') ->
      exists element w dt,
        element_is_displayed element w = (inl e, browser s', dt)).
Proof.
  split; [| split; [| split; [| split; [| split; [| split]]]]].
  - intros e element H.
    destruct (get_by_rejects_only_tokens _ _ H) as (_ & _ & He).
    split; [| split].
    + exact (is_element_present_unresolved _ _ _ _ H).
    + rewrite is_element_displayed_lookup.
      now rewrite (find_element_unresolved _ _ _ _ H).
    + unfold is_child_element_present, try_except, bind, find_child_element, retry.
      rewrite (retry_internal_pass _ _ _ _ s s (Raise e)).
      * reflexivity.
      * unfold bind, pure. now rewrite H.
      * intros e0 [= <-]. now rewrite He.
  - intros by_ n H Hw. rewrite (is_element_present_resolved _ _ _ _ H).
    split; [| split].
    + intros element w dt Hf.
      now rewrite (presence_wait_returns _ _ _ _ _ _ _ _ Hw Hf).
    + intros e w dt Hf Hn Hlate.
      now rewrite (presence_wait_times_out _ _ _ _ _ _ _ _ Hw Hf Hn Hlate).
    + intros e w dt Hf Hn.
      rewrite (presence_wait_raises _ _ _ _ _ _ _ _ Hw Hf Hn).
      now destruct (isinstance e TimeoutException).
  - intros by_ n H Hw. rewrite is_element_displayed_lookup.
    rewrite (find_element_resolved _ _ _ _ H).
    split; [| split].
    + intros element w dt Hf.
      now rewrite (presence_wait_returns _ _ _ _ _ _ _ _ Hw Hf).
    + intros e w dt Hf Hn Hlate.
      now rewrite (presence_wait_times_out _ _ _ _ _ _ _ _ Hw Hf Hn Hlate).
    + intros e w dt Hf Hn.
      now rewrite (presence_wait_raises _ _ _ _ _ _ _ _ Hw Hf Hn).
  - intros s' Ht. destruct (get_by locator) as [e|by_] eqn:H.
    + rewrite (is_element_present_unresolved _ _ _ _ H) in Ht. discriminate Ht.
    + rewrite (is_element_present_resolved _ _ _ _ H) in Ht.
      pose proof (until_spec (new_wait Driver timeout [])
                    (presence_of_element_located by_) "" s) as Hu.
      destruct (until _ _ _ s) as [[found|e|] s1]; cbn [fst snd] in Hu.
      * injection Ht as <-.
        destruct Hu as [(v & w & dt & Hv & Hm) | [(scr & st & Hv & _) | (e & w & dt & Hv & _)]];
          try discriminate Hv.
        apply presence_answer in Hm. now exists by_, v, w, dt.
      * destruct (isinstance e TimeoutException); discriminate Ht.
      * discriminate Ht.
  - intros s' Ht. destruct (get_by locator) as [e|by_] eqn:H.
    + rewrite (is_element_present_unresolved _ _ _ _ H) in Ht. discriminate Ht.
    + rewrite (is_element_present_resolved _ _ _ _ H) in Ht.
      pose proof (until_spec (new_wait Driver timeout [])
                    (presence_of_element_located by_) "" s) as Hu.
      destruct (until _ _ _ s) as [[found|e|] s1]; cbn [fst snd] in Hu.
      * discriminate Ht.
      * destruct (isinstance e TimeoutException) eqn:Hi; [| discriminate Ht].
        injection Ht as <-.
        destruct Hu as [(v & w & dt & Hv & Hm) | [(scr & st & Hv & Hlate) | (e0 & w & dt & Hv & Hm & _)]].
        -- discriminate Hv.
        -- left. exact Hlate.
        -- injection Hv as <-. right. apply presence_answer in Hm.
           now exists by_, e, w, dt.
      * discriminate Ht.
  - intros s' Ht. rewrite is_element_displayed_lookup in Ht.
    destruct (find_element locator FIND_TIMEOUT s) as [[found|e|] s1];
      try discriminate Ht.
    unfold call in Ht.
    destruct (element_is_displayed found (browser s1)) as [[[e|shown] w] dt] eqn:Hd;
      [discriminate Ht |].
    injection Ht as -> <-. now exists found, (browser s1), dt.
  - intros e s' Ht. rewrite is_element_displayed_lookup in Ht.
    destruct (find_element locator FIND_TIMEOUT s) as [[found|e0|] s1];
      try discriminate Ht.
    unfold call in Ht.
    destruct (element_is_displayed found (browser s1)) as [[[e1|shown] w] dt] eqn:Hd;
      [| discriminate Ht].
    injection Ht as -> <-. now exists found, (browser s1), dt.
Qed.

End WaitClaims.

Lemma wait_for_presence_ends_witness :
  (get_by "id@@late" = inr (By.ID, "late")
   /\ waiting [NoSuchElementException]
        (presence_of_element_located (B := scripted found_at_third_poll)
           (By.ID, "late") Driver)
        (clock (start found_at_third_poll) + 1000 * 5) 2 (start found_at_third_poll)
   /\ find_element_in (Browser := scripted found_at_third_poll) Driver By.ID "late" 2
      = (inr 7, 3, 100%N)
   /\ wait_till_element_is_present "id@@late" 5 (start found_at_third_poll)
      = (Return 7, scripted_state found_at_third_poll 3 1300 [500; 500]%N)
   /\ find_element "id@@late" 5 (start found_at_third_poll)
      = (Return 7, scripted_state found_at_third_poll 3 1300 [500; 500]%N))
  /\ (get_by "id@@missing" = inr (By.ID, "missing")
      /\ waiting [NoSuchElementException]
           (presence_of_element_located (B := scripted never_found)
              (By.ID, "missing") Driver)
           (clock (start never_found) + 1000 * 2) 3 (start never_found)
      /\ find_element_in (Browser := scripted never_found) Driver By.ID "missing" 3
         = (inl no_such_element_error, 4, 100%N)
      /\ wait_till_element_is_present "id@@missing" 2 (start never_found)
         = (Raise (mkExn TimeoutException "" None None),
            scripted_state never_found 4 2400 [500; 500; 500; 500]%N)
      /\ find_element "id@@missing" 2 (start never_found)
         = (Raise (find_error "id@@missing"
                     (mkExn TimeoutException (find_message "id@@missing" 2) None None)),
            scripted_state never_found 4 2400 [500; 500; 500; 500]%N)).
Proof.
  assert (Hlate : waiting [NoSuchElementException]
            (presence_of_element_located (B := scripted found_at_third_poll)
               (By.ID, "late") Driver)
            (clock (start found_at_third_poll) + 1000 * 5) 2
            (start found_at_third_poll)).
  { intros k Hk.
    destruct k as [|[|k]];
      [ split; [reflexivity | apply N.leb_le; reflexivity]
      | split; [reflexivity | apply N.leb_le; reflexivity]
      | exfalso; lia ]. }
  assert (Hnever : waiting [NoSuchElementException]
            (presence_of_element_located (B := scripted never_found)
               (By.ID, "missing") Driver)
            (clock (start never_found) + 1000 * 2) 3 (start never_found)).
  { intros k Hk.
    destruct k as [|[|[|k]]];
      [ split; [reflexivity | apply N.leb_le; reflexivity]
      | split; [reflexivity | apply N.leb_le; reflexivity]
      | split; [reflexivity | apply N.leb_le; reflexivity]
      | exfalso; lia ]. }
  split.
  - split; [reflexivity |]. split; [exact Hlate |]. split; [reflexivity |].
    exact (proj1 (wait_for_presence_ends (B := scripted found_at_third_poll)
                    "id@@late" (By.ID, "late") 5 (start found_at_third_poll) 2
                    eq_refl Hlate)
             7 3 100%N eq_refl).
  - split; [reflexivity |]. split; [exact Hnever |]. split; [reflexivity |].
    exact (proj1 (proj2 (wait_for_presence_ends (B := scripted never_found)
                           "id@@missing" (By.ID, "missing") 2 (start never_found) 3
                           eq_refl Hnever))
             no_such_element_error 4 100%N eq_refl eq_refl eq_refl).
Defined.

(** C7, as stated, fails: when the element never appears,
    [wait_till_element_is_present] raises a [TimeoutException] whose message
    is empty, so that its text names neither the locator nor the condition,
    and [find_element] raises a plain [Exception], not a timeout error. *)
Lemma wait_timeout_carries_no_locator :
  wait_till_element_is_present (B := scripted never_found) "id@@missing" 2
    (start never_found)
  = (Raise (mkExn TimeoutException "" None None),
     scripted_state never_found 4 2400 [500; 500; 500; 500]%N)
  /\ str_of_exn (mkExn TimeoutException "" None None) = "Message: " ++ newline
  /\ find_element (B := scripted never_found) "id@@missing" 2 (start never_found)
     = (Raise (find_error "id@@missing"
                 (mkExn TimeoutException (find_message "id@@missing" 2) None None)),
        scripted_state never_found 4 2400 [500; 500; 500; 500]%N)
  /\ cls (find_error "id@@missing"
            (mkExn TimeoutException (find_message "id@@missing" 2) None None))
     = Exception.
Proof. repeat split. Qed.



(** C9, as stated, fails: [is_element_present] does not turn every failure
    into [False]; a locator with an unknown strategy and an error of the
    browser session both make it raise. *)
Lemma is_element_present_raises :
  is_element_present (B := scripted all_fine) "bogus@@foo" 2 (start all_fine)
  = (Raise (presence_error "bogus@@foo"
              (new_exn Exception
                 " Incorrect locator specified . Locator has to be either xpath,id,css,tagname -->bogus@@foo")),
     start all_fine)
  /\ is_element_present (B := scripted broken_session) "id@@total" 2
       (start broken_session)
     = (Raise (presence_error "id@@total" session_error),
        scripted_state broken_session 1 100 []).
Proof. repeat split. Qed.

Lemma presence_helpers_witness :
  (get_by "bogus@@foo"
   = inl (new_exn Exception
            " Incorrect locator specified . Locator has to be either xpath,id,css,tagname -->bogus@@foo")
   /\ is_element_displayed (B := scripted all_fine) "bogus@@foo" (start all_fine)
      = (Return false, start all_fine)
   /\ is_child_element_present (B := scripted all_fine) 7 "bogus@@foo" 2 (start all_fine)
      = (Return false, start all_fine))
  /\ (waiting [NoSuchElementException]
        (presence_of_element_located (B := scripted found_at_third_poll)
           (By.ID, "late") Driver)
        (clock (start found_at_third_poll) + 1000 * 2) 2 (start found_at_third_poll)
      /\ is_element_present "id@@late" 2 (start found_at_third_poll)
         = (Return true, scripted_state found_at_third_poll 3 1300 [500; 500]%N))
  /\ (waiting [NoSuchElementException]
        (presence_of_element_located (B := scripted never_found)
           (By.ID, "missing") Driver)
        (clock (start never_found) + 1000 * 2) 3 (start never_found)
      /\ is_element_present "id@@missing" 2 (start never_found)
         = (Return false, scripted_state never_found 4 2400 [500; 500; 500; 500]%N))
  /\ (waiting [NoSuchElementException]
        (presence_of_element_located (B := scripted broken_session)
           (By.ID, "total") Driver)
        (clock (start broken_session) + 1000 * FIND_TIMEOUT) 0 (start broken_session)
      /\ is_element_displayed "id@@total" (start broken_session)
         = (Return false, scripted_state broken_session 1 100 []))
  /\ (waiting [NoSuchElementException]
        (presence_of_element_located (B := scripted all_fine) (By.ID, "total") Driver)
        (clock (start all_fine) + 1000 * FIND_TIMEOUT) 0 (start all_fine)
      /\ is_element_displayed "id@@total" (start all_fine)
         = (Return true, scripted_state all_fine 2 200 [])).
Proof.
  assert (Hlate : waiting [NoSuchElementException]
            (presence_of_element_located (B := scripted found_at_third_poll)
               (By.ID, "late") Driver)
            (clock (start found_at_third_poll) + 1000 * 2) 2
            (start found_at_third_poll)).
  { intros k Hk.
    destruct k as [|[|k]];
      [ split; [reflexivity | apply N.leb_le; reflexivity]
      | split; [reflexivity | apply N.leb_le; reflexivity]
      | exfalso; lia ]. }
  assert (Hnever : waiting [NoSuchElementException]
            (presence_of_element_located (B := scripted never_found)
               (By.ID, "missing") Driver)
            (clock (start never_found) + 1000 * 2) 3 (start never_found)).
  { intros k Hk.
    destruct k as [|[|[|k]]];
      [ split; [reflexivity | apply N.leb_le; reflexivity]
      | split; [reflexivity | apply N.leb_le; reflexivity]
      | split; [reflexivity | apply N.leb_le; reflexivity]
      | exfalso; lia ]. }
  assert (Hbroken : waiting [NoSuchElementException]
            (presence_of_element_located (B := scripted broken_session)
               (By.ID, "total") Driver)
            (clock (start broken_session) + 1000 * FIND_TIMEOUT) 0
            (start broken_session))
    by (intros k Hk; exfalso; lia).
  assert (Hfine : waiting [NoSuchElementException]
            (presence_of_element_located (B := scripted all_fine) (By.ID, "total") Driver)
            (clock (start all_fine) + 1000 * FIND_TIMEOUT) 0 (start all_fine))
    by (intros k Hk; exfalso; lia).
  split; [| split; [| split; [| split]]].
  - split; [reflexivity |].
    exact (proj2 (proj1 (presence_helpers (B := scripted all_fine) "bogus@@foo" 2
                           (start all_fine))
                    _ 7 eq_refl)).
  - split; [exact Hlate |].
    exact (proj1 (proj1 (proj2 (presence_helpers (B := scripted found_at_third_poll)
                                  "id@@late" 2 (start found_at_third_poll)))
                    (By.ID, "late") 2 eq_refl Hlate)
             7 3 100%N eq_refl).
  - split; [exact Hnever |].
    exact (proj1 (proj2 (proj1 (proj2 (presence_helpers (B := scripted never_found)
                                         "id@@missing" 2 (start never_found)))
                           (By.ID, "missing") 3 eq_refl Hnever))
             no_such_element_error 4 100%N eq_refl eq_refl eq_refl).
  - split; [exact Hbroken |].
    exact (proj2 (proj2 (proj1 (proj2 (proj2 (presence_helpers (B := scripted broken_session)
                                                "id@@total" 2 (start broken_session))))
                           (By.ID, "total") 0 eq_refl Hbroken))
             session_error 1 100%N eq_refl eq_refl).
  - split; [exact Hfine |].
    exact (proj1 (proj1 (proj2 (proj2 (presence_helpers (B := scripted all_fine)
                                         "id@@total" 2 (start all_fine))))
                    (By.ID, "total") 0 eq_refl Hfine)
             7 1 100%N eq_refl).
Defined.


(** ** More facts about substrings and the parts of a split *)

Module PyStrFacts2.
Import PyStr PyStrFacts.

(** [sub in s] holds exactly when [s] is [sub] with something before and
    something after. *)
Lemma contains_spec (sub s : string) :
  contains sub s = true <-> exists a b, s = a ++ sub ++ b.
Proof.
split.
- induction s as [|c s IH]; cbn [contains]; intros H.
  + rewrite orb_false_r in H. destruct (prefix_inv _ _ H) as [r ->].
    now exists "", r.
  + apply orb_true_iff in H as [H | H].
    * destruct (prefix_inv _ _ H) as [r ->]. now exists "", r.
    * destruct (IH H) as (a & b & ->). now exists (String c a), b.
- intros (a & b & ->). induction a as [|c a IH].
  + cbn [append]. destruct (sub ++ b) eqn:E; cbn [contains];
      rewrite <- ?E, prefix_append; reflexivity.
  + cbn [append contains]. rewrite IH. apply orb_true_r.
Qed.

Lemma contains_trans (a b c : string) :
  contains a b = true -> contains b c = true -> contains a c = true.
Proof.
intros Hab Hbc.
apply contains_spec in Hab as (x & y & ->).
apply contains_spec in Hbc as (x' & y' & ->).
apply contains_spec. exists (x' ++ x), (y ++ y').
now rewrite !append_assoc.
Qed.

Lemma contains_empty (s : string) : contains "" s = true.
Proof. apply contains_spec. now exists "", s. Qed.

(** A string that ends with [c] and is cut in two with a non-empty second
    half: the second half ends with [c]. *)
Lemma snoc_cut (cur : string) (c : ascii) (a b : string) :
  cur ++ String c "" = a ++ b -> b <> "" ->
  exists b0, b = b0 ++ String c "" /\ cur = a ++ b0.
Proof.
revert cur; induction a as [|x a IH]; intros cur H Hb.
- cbn [append] in H. subst b. now exists cur.
- destruct cur as [|y cur]; cbn [append] in H.
  + injection H as -> H. destruct a; [| discriminate H].
    cbn [append] in H. now subst b.
  + injection H as -> H. destruct (IH _ H Hb) as (b0 & -> & ->).
    now exists b0.
Qed.

Section Parts.
Variables (c0 : ascii) (sep' : string).
Let sep := String c0 sep'.

Abbreviation clean := (clean_part sep).

Lemma clean_nil (s : string) : clean "" s.
Proof. intros a b H Hb. destruct a, b; try discriminate H. now elim Hb. Qed.

Lemma clean_no_sep (cur s : string) : clean cur s -> contains sep cur = false.
Proof.
intros H. destruct (contains sep cur) eqn:Hc; [| reflexivity].
apply contains_spec in Hc as (a & b & ->).
assert (Hne : sep ++ b <> "") by discriminate.
specialize (H a (sep ++ b) eq_refl Hne).
now rewrite append_assoc, prefix_append in H.
Qed.

Lemma clean_snoc (cur : string) (c : ascii) (s : string) :
  clean cur (String c s) -> String.prefix sep (String c s) = false ->
  clean (cur ++ String c "") s.
Proof.
intros H Hp a b Hcut Hb.
destruct (snoc_cut _ _ _ _ Hcut Hb) as (b0 & -> & ->).
rewrite append_snoc. destruct b0 as [|x b0]; [exact Hp |].
apply (H a (String x b0)); [reflexivity | discriminate].
Qed.

(** No part of a split contains the separator. *)
Lemma split_go_parts_clean (s cur : string) :
  clean cur s -> Forall (fun p => contains sep p = false) (split_go sep 0 cur s).
Proof.
revert cur; induction s as [| r IH | c s Hp IH] using (scan_ind c0 sep');
  intros cur H.
- constructor; [exact (clean_no_sep _ _ H) | constructor].
- rewrite (split_go_sep c0 sep'). constructor; [exact (clean_no_sep _ _ H) |].
  apply IH, clean_nil.
- rewrite (split_go_char c0 sep' _ _ _ Hp). apply IH. now apply clean_snoc.
Qed.

End Parts.

Lemma split_parts_no_sep (s p : string) :
  In p (split SEP s) -> contains SEP p = false.
Proof.
intros H.
pose proof (split_go_parts_clean "@" "@" s "" (clean_nil "@" "@" s)) as F.
rewrite Forall_forall in F. exact (F p H).
Qed.

End PyStrFacts2.


(** ** The collection hook *)

Module ConftestFacts.
Import PyStr PyStrFacts PyStrFacts2 Conftest.

Section HookFacts.
Variable Item : Type.
Variable str_item : Item -> string.

Abbreviation select_name := (select_name Item str_item).
Abbreviation select_sequence := (select_sequence Item str_item).
Abbreviation hook := (pytest_collection_modifyitems Item str_item).

(** The inner loop appends the matching items, in the order of [items]. *)
Lemma select_name_filter (s : string) (items selected : list Item) :
  select_name s items selected
  = (selected ++ filter (fun item => contains s (str_item item)) items)%list.
Proof.
revert selected; induction items as [|item rest IH]; intros selected; cbn.
- now rewrite app_nil_r.
- rewrite IH. destruct (contains s (str_item item)); [| reflexivity].
  now rewrite <- app_assoc.
Qed.

(** The outer loop appends one such block for every name, in the order of
    the names. *)
Lemma select_sequence_flat_map (seq : list string) (items selected : list Item) :
  select_sequence seq items selected
  = (selected
     ++ flat_map (fun s => filter (fun item => contains s (str_item item)) items) seq)%list.
Proof.
revert selected; induction seq as [|s rest IH]; intros selected; cbn.
- now rewrite app_nil_r.
- rewrite IH, select_name_filter. now rewrite <- app_assoc.
Qed.

(** X1. With [--seq], a test is in the list the hook leaves exactly when it
    was collected and its text contains one of the comma-separated names of
    [--customseq]: the hook adds no test, and a collected test that no name
    occurs in is dropped. *)
Theorem hook_selects_named_items (custom : string) (items : list Item) (item : Item) :
  In item (hook (mkConfig true custom) items)
  <-> In item items
      /\ exists s, In s (split "," custom) /\ contains s (str_item item) = true.
Proof.
unfold pytest_collection_modifyitems. cbn [option_seq customseq].
rewrite select_sequence_flat_map. cbn [app]. rewrite in_flat_map.
split.
- intros (s & Hs & Hin). apply filter_In in Hin as [Hin Hc].
  split; [exact Hin | now exists s].
- intros (Hin & s & Hs & Hc). exists s. split; [exact Hs |].
  apply filter_In. now split.
Qed.

(** A [--customseq] without a comma is a single name. *)
Lemma hook_one_name (custom : string) (items : list Item) :
  contains "," custom = false ->
  hook (mkConfig true custom) items
  = filter (fun item => contains custom (str_item item)) items.
Proof.
intros H. unfold pytest_collection_modifyitems. cbn [option_seq customseq].
rewrite select_sequence_flat_map. cbn [app].
unfold split. rewrite (split_go_no_sep "," "" "" custom H).
cbn [append flat_map]. now rewrite app_nil_r.
Qed.

(** X3. A [--customseq] without a comma is one name: the hook keeps the
    tests whose text contains it, in the order of collection, once each.
    The empty [--customseq] is the empty name, which occurs in every text,
    so it keeps the whole collection as it is. *)
Theorem hook_single_name (custom : string) (items : list Item) :
  contains "," custom = false ->
  hook (mkConfig true custom) items
  = filter (fun item => contains custom (str_item item)) items
  /\ hook (mkConfig true "") items = items.
Proof.
intros H. split; [exact (hook_one_name custom items H) |].
rewrite (hook_one_name "" items eq_refl).
induction items as [|item rest IH]; cbn [filter].
- reflexivity.
- rewrite contains_empty. now rewrite IH.
Qed.

(** X4. Names select by substring: when the name [a] occurs in the name
    [b], every test that [--customseq b] keeps is kept by [--customseq a]
    too. *)
Theorem hook_shorter_name_selects_more (a b : string) (items : list Item)
    (item : Item) :
  contains "," a = false ->
  contains "," b = false ->
  contains a b = true ->
  In item (hook (mkConfig true b) items) ->
  In item (hook (mkConfig true a) items).
Proof.
intros Ha Hb Hab.
rewrite (hook_one_name a items Ha), (hook_one_name b items Hb).
rewrite !filter_In. intros [Hin Hc]. split; [exact Hin |].
exact (contains_trans _ _ _ Hab Hc).
Qed.

Section Counting.
Hypothesis Item_eq_dec : forall x y : Item, {x = y} + {x <> y}.

Lemma count_occ_filter (f : Item -> bool) (l : list Item) (x : Item) :
  count_occ Item_eq_dec (filter f l) x
  = if f x then count_occ Item_eq_dec l x else 0.
Proof.
induction l as [|y l IH]; cbn.
- now destruct (f x).
- destruct (f y) eqn:Hy; cbn; destruct (Item_eq_dec y x) as [->|Hne];
    rewrite ?IH; try reflexivity.
  + now rewrite Hy.
  + now rewrite Hy.
Qed.

(** X2. With [--seq], a test is run once for every name of [--customseq]
    that occurs in its text, times the number of times it was collected: a
    test that two names match is in the list twice. *)
Theorem hook_repeats_items (custom : string) (items : list Item) (item : Item) :
  count_occ Item_eq_dec (hook (mkConfig true custom) items) item
  = length (names_matching Item str_item (split "," custom) item)
    * count_occ Item_eq_dec items item.
Proof.
unfold pytest_collection_modifyitems, names_matching. cbn [option_seq customseq].
rewrite select_sequence_flat_map. cbn [app].
induction (split "," custom) as [|s seq IH]; cbn [flat_map filter].
- reflexivity.
- rewrite count_occ_app, IH, count_occ_filter.
  destruct (contains s (str_item item)); cbn [length]; lia.
Qed.

End Counting.
End HookFacts.

Lemma hook_single_name_witness :
  contains "," "test_update" = false
  /\ pytest_collection_modifyitems string function_item (mkConfig true "test_update")
       ["test_login"; "test_update_xms"; "test_update"]
     = filter (fun item => contains "test_update" (function_item item))
         ["test_login"; "test_update_xms"; "test_update"]
  /\ pytest_collection_modifyitems string function_item (mkConfig true "")
       ["test_login"; "test_update_xms"; "test_update"]
     = ["test_login"; "test_update_xms"; "test_update"].
Proof.
split; [reflexivity |].
exact (hook_single_name string function_item "test_update"
         ["test_login"; "test_update_xms"; "test_update"] eq_refl).
Defined.

Lemma hook_shorter_name_selects_more_witness :
  contains "," "test_update" = false
  /\ contains "," "test_update_xms" = false
  /\ contains "test_update" "test_update_xms" = true
  /\ In "test_update_xms"
       (pytest_collection_modifyitems string function_item
          (mkConfig true "test_update_xms") ["test_login"; "test_update_xms"])
  /\ In "test_update_xms"
       (pytest_collection_modifyitems string function_item
          (mkConfig true "test_update") ["test_login"; "test_update_xms"]).
Proof.
assert (H : In "test_update_xms"
              (pytest_collection_modifyitems string function_item
                 (mkConfig true "test_update_xms") ["test_login"; "test_update_xms"]))
  by (left; reflexivity).
split; [reflexivity |]. split; [reflexivity |]. split; [reflexivity |].
split; [exact H |].
exact (hook_shorter_name_selects_more string function_item "test_update"
         "test_update_xms" ["test_login"; "test_update_xms"] "test_update_xms"
         eq_refl eq_refl eq_refl H).
Defined.

(** The order of the names wins over the order of collection, and a test
    that two names match is run twice. *)
Example hook_reorders_and_repeats :
  pytest_collection_modifyitems string function_item
    (mkConfig true "test_update,test_login,xms")
    ["test_login"; "test_update_xms"; "test_teardown"]
  = ["test_update_xms"; "test_login"; "test_update_xms"].
Proof. reflexivity. Qed.

End ConftestFacts.


(** ** More on the resolver *)

Section ResolverExtra.
Import PyStr PyStrFacts PyStrFacts2.

(** X5. Writing a locator as strategy token, ["@@"], value and resolving it
    gives the strategy and the value back exactly when the value does not
    contain ["@@"]; a value that contains it comes back cut. *)
Theorem get_by_round_trip (st : Strategy) (v : string) :
  get_by (Strategy_value st ++ SEP ++ v) = inr (by_of st, v)
  <-> contains SEP v = false.
Proof.
split.
- intros H. destruct (contains SEP v) eqn:Hc; [| reflexivity]. exfalso.
  destruct (split_go_has_sep "@" "@" "" v Hc) as (p & q & rest & E).
  assert (Hs : split SEP (Strategy_value st ++ SEP ++ v)
               = Strategy_value st :: p :: q :: rest).
  { unfold split. rewrite split_go_token by apply no_at_Strategy_value.
    unfold SEP. now rewrite E. }
  rewrite (get_by_parts _ _ _ _ Hs) in H. injection H as ->.
  pose proof (join_split_go "@" "@" "" v) as J. rewrite E in J.
  rewrite (join_cons "@" "@") in J by discriminate. cbn [append] in J.
  apply (f_equal String.length) in J. rewrite length_append in J.
  cbn [String.length] in J. lia.
- intros H. exact (get_by_parts _ _ _ _ (split_token_value st v H)).
Qed.

(** X6. The value of a resolved locator never contains ["@@"]. *)
Theorem get_by_value_has_no_separator (s : string) (b : By.t) (v : string) :
  get_by s = inr (b, v) -> contains SEP v = false.
Proof.
unfold get_by.
set (s' := if negb (contains SEP s) then Strategy_value ID ++ SEP ++ s else s).
unfold index. destruct (nth_error (split SEP s') 0) as [p|]; [| discriminate].
destruct (nth_error (split SEP s') 1) as [q|] eqn:E; [| discriminate].
intros H. assert (q = v) as <-.
{ repeat match type of H with
         | (if ?c then _ else _) = _ => destruct c
         end; now inversion H. }
apply (split_parts_no_sep s'). exact (nth_error_In _ _ E).
Qed.

End ResolverExtra.

Lemma get_by_value_has_no_separator_witness :
  get_by "css@@div.a@@@b" = inr (By.CSS_SELECTOR, "div.a")
  /\ PyStr.contains SEP "div.a" = false.
Proof.
split; [reflexivity |].
exact (get_by_value_has_no_separator "css@@div.a@@@b" By.CSS_SELECTOR "div.a" eq_refl).
Defined.


(** ** More on the page methods *)

Section PageExtraFacts.
Context {B : Browser} {BM : BrowserMore B}.

Lemma keep_displayed_subsequence (elements : list WebElement) :
  forall (s s' : state) (l : list WebElement),
    keep_displayed elements s = (Return l, s') -> subsequence l elements.
Proof.
induction elements as [|element rest IH]; intros s s' l; cbn [keep_displayed].
- intros [= <- _]. constructor.
- unfold bind at 1, call.
  destruct (element_is_displayed element (browser s)) as [[[e|shown] w] dt];
    [discriminate |].
  unfold bind at 1.
  destruct (keep_displayed rest _) as [[kept|e|] s1] eqn:E; try discriminate.
  cbn. intros [= <- _]. specialize (IH _ _ _ E).
  destruct shown; now constructor.
Qed.

(** X7. What [find_visible_elements] returns is what the driver found with
    some elements left out, in the order the driver gave them: it adds no
    element and moves none. *)
Theorem find_visible_elements_subsequence (locator : string) (s s' : state)
    (l : list WebElement) :
  find_visible_elements locator s = (Return l, s') ->
  exists by_ found w dt,
    get_by locator = inr by_
    /\ find_elements_in Driver (fst by_) (snd by_) (browser s) = (inr found, w, dt)
    /\ subsequence l found.
Proof.
unfold find_visible_elements, bind at 1, pure.
destruct (get_by locator) as [e|by_] eqn:Hg; [discriminate |]. cbn [ret].
unfold bind at 1, call.
destruct (find_elements_in Driver (fst by_) (snd by_) (browser s))
  as [[[e|found] w] dt] eqn:Hf; [discriminate |].
intros H. exists by_, found, w, dt. split; [reflexivity |]. split; [exact Hf |].
exact (keep_displayed_subsequence _ _ _ _ H).
Qed.

(** X9. On a locator that the resolver rejects, no call reaches the
    browser: [find_elements] raises its own [Exception] around the
    resolver's error, while [find_visible_elements] and
    [find_child_elements] raise the resolver's error as it is. *)
Theorem find_elements_rejected_locator (locator : string) (element : WebElement)
    (e : exn) (s : state) :
  get_by locator = inl e ->
  find_elements locator s = (Raise (find_elements_error locator e), s)
  /\ find_visible_elements locator s = (Raise e, s)
  /\ find_child_elements element locator s = (Raise e, s).
Proof.
intros H.
unfold find_elements, find_visible_elements, find_child_elements, try_except,
  bind, pure.
rewrite H. repeat split.
Qed.

(** X10. A locator that is neither a string nor an element: [click] raises
    the [Exception] that names it, on the first try; [javascript_click]
    raises [TypeError], because its message is put together with [+]. None
    of the two calls the browser. *)
Theorem click_on_other_object (text type_name : string) (s : state) :
  click (LocOther text) s
  = (Raise (new_exn Exception
              ("Could not click on the element with locator " ++ text)), s)
  /\ javascript_click (JsOther type_name) s
     = (Raise (concat_type_error type_name), s).
Proof.
split; [| reflexivity].
unfold click, retry. apply retry_internal_pass; [reflexivity |].
now intros e0 [= <-].
Qed.

(** The loop of [select_dropdown_option] when reading the text of an option
    answers [label] and leaves the page as it is. *)
Lemma click_first_option_find (label : WebElement -> string) (option_text : string) :
  (forall option w, exists dt, element_text option w = (inr (label option), w, dt)) ->
  forall (options : list WebElement) (s : state),
  exists s1,
    browser s1 = browser s /\ sleeps s1 = sleeps s
    /\ click_first_option options option_text s
       = match find (fun option => String.eqb (label option) option_text) options with
         | Some option => call (element_click option) s1
         | None => (Return tt, s1)
         end.
Proof.
intros Hread. induction options as [|option rest IH]; intros s.
- exists s. repeat split.
- cbn [click_first_option find]. unfold bind at 1, call at 1.
  destruct (Hread option (browser s)) as [dt ->].
  set (s0 := mkState (browser s) (clock s + dt) (sleeps s)).
  destruct (String.eqb (label option) option_text).
  + exists s0. repeat split.
  + destruct (IH s0) as (s1 & Hb & Hs & ->). exists s1. repeat split; assumption.
Qed.

(** X11. When reading the text of an option answers its label and leaves
    the page as it is, [select_dropdown_option] clicks the first option
    whose label is the text asked for, and only that one; when no option
    has that label it clicks nothing and returns without an error. *)
Theorem select_dropdown_option_first_match (label : WebElement -> string)
    (locator option_text : string) (s s0 : state) (dropdown : WebElement)
    (options : list WebElement) (w : W) (dt : N) :
  (forall option w, exists dt, element_text option w = (inr (label option), w, dt)) ->
  find_element locator FIND_TIMEOUT s = (Return dropdown, s0) ->
  element_find_elements_by_tag_name dropdown "option" (browser s0)
  = (inr options, w, dt) ->
  exists s1,
    browser s1 = w /\ sleeps s1 = sleeps s0
    /\ select_dropdown_option locator option_text s
       = match find (fun option => String.eqb (label option) option_text) options with
         | Some option => call (element_click option) s1
         | None => (Return tt, s1)
         end.
Proof.
intros Hread Hf Ho. unfold select_dropdown_option, bind at 1. rewrite Hf.
unfold bind at 1, call at 1. rewrite Ho.
destruct (click_first_option_find label option_text Hread options
            (mkState w (clock s0 + dt) (sleeps s0))) as (s1 & Hb & Hs & ->).
exists s1. repeat split; assumption.
Qed.

Lemma wait_till_text_resolved (locator text : string) (by_ : By.t * string)
    (timeout : N) (s : state) :
  get_by locator = inr by_ ->
  wait_till_text_is_present_in_element locator text timeout s
  = until (new_wait Driver timeout WAIT_IGNORED)
      (text_to_be_present_in_element by_ text) "" s.
Proof.
intros H. unfold wait_till_text_is_present_in_element, try_except, bind, pure.
rewrite H. cbn [ret].
destruct (until _ _ _ s) as [[v|e|] s1]; reflexivity.
Qed.

(** X12. Whenever [wait_till_text_is_present_in_element] returns, it
    returns [True] (not the element), and some poll has read from an
    element a text that contains the text waited for. *)
Theorem wait_till_text_returns_true (locator text : string) (timeout : N)
    (s s' : state) (v : bool) :
  wait_till_text_is_present_in_element locator text timeout s = (Return v, s') ->
  v = true
  /\ exists element read w w' dt,
       element_text element w = (inr read, w', dt)
       /\ PyStr.contains text read = true.
Proof.
intros H. destruct (get_by locator) as [e|by_] eqn:Hg.
- unfold wait_till_text_is_present_in_element, try_except, bind, pure in H.
  rewrite Hg in H. discriminate H.
- rewrite (wait_till_text_resolved _ _ _ _ _ Hg) in H.
  pose proof (until_spec (new_wait Driver timeout WAIT_IGNORED)
                (text_to_be_present_in_element by_ text) "" s) as Hu.
  rewrite H in Hu. cbn [fst snd] in Hu.
  destruct Hu as [(v0 & w & dt & Hv & Hm) | [(scr & st & Hv & _) | (e & w & dt & Hv & _)]];
    try discriminate Hv.
  injection Hv as <-. cbn [new_wait wait_driver] in Hm.
  unfold text_to_be_present_in_element in Hm.
  destruct (find_element_in Driver (fst by_) (snd by_) w) as [[[e|element] w1] dt1].
  + destruct (isinstance e StaleElementReferenceException); discriminate Hm.
  + destruct (element_text element w1) as [[[e|read] w2] dt2] eqn:Ht.
    * destruct (isinstance e StaleElementReferenceException); discriminate Hm.
    * destruct (PyStr.contains text read) eqn:Hc; [| discriminate Hm].
      injection Hm as <- _ _. split; [reflexivity |].
      now exists element, read, w1, w2, dt2.
Qed.

(** X13. When the first poll finds the element and reads a text that
    contains the text waited for, [wait_till_text_is_present_in_element]
    returns [True] at once, without a sleep. The empty text is contained
    in every text, so waiting for it is waiting for the element. *)
Theorem wait_till_text_first_poll (locator text : string) (by_ : By.t * string)
    (timeout : N) (s : state) (element : WebElement) (read : string)
    (w1 w2 : W) (dt1 dt2 : N) :
  get_by locator = inr by_ ->
  find_element_in Driver (fst by_) (snd by_) (browser s) = (inr element, w1, dt1) ->
  element_text element w1 = (inr read, w2, dt2) ->
  PyStr.contains text read = true ->
  wait_till_text_is_present_in_element locator text timeout s
  = (Return true, mkState w2 (clock s + (dt1 + dt2)) (sleeps s))
  /\ wait_till_text_is_present_in_element locator "" timeout s
     = (Return true, mkState w2 (clock s + (dt1 + dt2)) (sleeps s)).
Proof.
intros Hg Hf Ht Hc.
assert (Hany : forall text0, PyStr.contains text0 read = true ->
          wait_till_text_is_present_in_element locator text0 timeout s
          = (Return true, mkState w2 (clock s + (dt1 + dt2)) (sleeps s))).
{ intros text0 Hc0. rewrite (wait_till_text_resolved _ _ _ _ _ Hg).
  apply until_first_poll_value. cbn [new_wait wait_driver].
  unfold text_to_be_present_in_element. now rewrite Hf, Ht, Hc0. }
split; [exact (Hany text Hc) |].
apply Hany, PyStrFacts2.contains_empty.
Qed.

(** The wait of [until_not] is never cut. *)
Lemma until_not_loop_total {V : Type} (ignored : list exn_class)
    (method : ext (option V)) (message : string) (end_time : N) :
  forall (fuel : nat) (s : state),
    (end_time < clock s + POLL_FREQUENCY * N.of_nat (S fuel))%N ->
    fst (until_not_loop (S fuel) ignored method message end_time s) <> OutOfFuel.
Proof.
unfold POLL_FREQUENCY.
induction fuel as [|fuel IH]; intros s Hfuel.
- cbn [until_not_loop].
  destruct (method (browser s)) as [[[e|[v|]] w] dt]; try discriminate.
  + destruct (caught_by ignored e); discriminate.
  + assert (Hlate : (end_time <? clock (do_sleep POLL_FREQUENCY
                       (mkState w (clock s + dt) (sleeps s))))%N = true).
    { apply N.ltb_lt. unfold POLL_FREQUENCY. cbn [do_sleep clock]. lia. }
    rewrite Hlate. discriminate.
- remember (S fuel) as n eqn:Hn. cbn [until_not_loop].
  destruct (method (browser s)) as [[[e|[v|]] w] dt]; try discriminate.
  + destruct (caught_by ignored e); discriminate.
  + set (s2 := do_sleep POLL_FREQUENCY (mkState w (clock s + dt) (sleeps s))).
    destruct (end_time <? clock s2)%N; [discriminate |].
    subst n. apply IH. subst s2. unfold POLL_FREQUENCY. cbn [do_sleep clock]. lia.
Qed.

Lemma until_not_total {V : Type} (wait : WebDriverWait)
    (method : search_context WebElement -> ext (option V)) (message : string) :
  total (until_not wait method message).
Proof.
intros s. unfold until_not, max_polls. apply until_not_loop_total.
apply max_polls_enough.
Qed.




(** X15. [find_child_element] is retried on a stale parent: when the
    lookup inside the element raises [StaleElementReferenceException] and
    the next one, two seconds later, finds the child, the child is
    returned after that one sleep. *)
Theorem find_child_element_retries_stale (element child : WebElement)
    (locator : string) (by_ : By.t * string) (timeout : N) (s : state)
    (e : exn) (w1 w2 : W) (dt1 dt2 : N) :
  get_by locator = inr by_ ->
  find_element_in (Within element) (fst by_) (snd by_) (browser s) = (inl e, w1, dt1) ->
  isinstance e StaleElementReferenceException = true ->
  find_element_in (Within element) (fst by_) (snd by_) w1 = (inr child, w2, dt2) ->
  find_child_element element locator timeout s
  = (Return child,
     mkState w2 (clock s + dt1 + RETRY_DELAY + dt2) (sleeps s ++ [RETRY_DELAY])).
Proof.
intros Hg H1 Hs H2. unfold find_child_element, retry.
change (Pos.to_nat RETRY_TRIES - 1) with 4.
set (body := bind (pure (get_by locator)) _).
assert (Hbody : forall s0, body s0
          = until (new_wait (Within element) timeout [])
              (presence_of_element_located by_) "" s0).
{ intros s0. unfold body, bind, pure. now rewrite Hg. }
assert (B1 : body s = (Raise e, mkState w1 (clock s + dt1) (sleeps s))).
{ rewrite Hbody. apply until_first_poll_error.
  - cbn [new_wait wait_driver]. unfold presence_of_element_located. now rewrite H1.
  - unfold caught_by. cbn [new_wait wait_ignored IGNORED_EXCEPTIONS app existsb].
    now rewrite (isinstance_stale_not_no_such_element _ Hs). }
rewrite (retry_internal_again _ _ _ _ _ _ _ B1)
  by (unfold caught_by; cbn [existsb]; now rewrite Hs).
apply retry_internal_pass; [| discriminate].
rewrite Hbody.
rewrite (until_first_poll_value (new_wait (Within element) timeout [])
           (presence_of_element_located by_) "" _ child w2 dt2).
- reflexivity.
- cbn [new_wait wait_driver do_sleep browser]. unfold presence_of_element_located.
  now rewrite H2.
Qed.

(** X16. [get_attribute] on an element is retried when the element is
    stale: when the read raises [StaleElementReferenceException] and the
    next one, two seconds later, answers, the answer is returned after
    that one sleep. *)
Theorem get_attribute_retries_stale (element : WebElement) (attribute : string)
    (s : state) (e : exn) (v : option string) (w1 w2 : W) (dt1 dt2 : N) :
  element_get_attribute element attribute (browser s) = (inl e, w1, dt1) ->
  isinstance e StaleElementReferenceException = true ->
  element_get_attribute element attribute w1 = (inr v, w2, dt2) ->
  get_attribute (inl element) attribute s
  = (Return v,
     mkState w2 (clock s + dt1 + RETRY_DELAY + dt2) (sleeps s ++ [RETRY_DELAY])).
Proof.
intros H1 Hs H2. unfold get_attribute, retry.
change (Pos.to_nat RETRY_TRIES - 1) with 4. cbn [get_attribute_body].
assert (B1 : call (element_get_attribute element attribute) s
             = (Raise e, mkState w1 (clock s + dt1) (sleeps s)))
  by (unfold call; now rewrite H1).
rewrite (retry_internal_again _ _ _ _ _ _ _ B1)
  by (unfold caught_by; cbn [existsb]; now rewrite Hs).
apply retry_internal_pass; [| discriminate].
unfold call. cbn [do_sleep browser clock sleeps]. now rewrite H2.
Qed.

(** X17. [is_child_element_present] always answers: from every state, on
    every page, it ends and returns a boolean, and never raises. *)
Theorem is_child_element_present_answers (element : WebElement)
    (locator : string) (timeout : N) (s : state) :
  exists (b : bool) (s' : state),
    is_child_element_present element locator timeout s = (Return b, s').
Proof.
unfold is_child_element_present, try_except.
assert (Ht : total (bind (find_child_element element locator timeout)
                      (fun _ => ret true))).
{ apply total_bind; [| intro; apply total_ret].
  apply total_retry, total_bind; [apply total_pure | intro; apply total_until]. }
specialize (Ht s).
destruct (bind _ _ s) as [[b|e|] s1].
- now exists b, s1.
- now exists false, s1.
- now elim Ht.
Qed.

End PageExtraFacts.


(** ** The extra page theorems on concrete pages *)

Lemma find_visible_elements_subsequence_witness :
  find_visible_elements (B := recording colours) (BM := recording_more colours)
    "id@@colour" (recorded colours [] 0 [])
  = (Return [1; 3], recorded colours [] 40 [])
  /\ exists by_ found w dt,
       get_by "id@@colour" = inr by_
       /\ find_elements_in (B := recording colours) (BrowserMore := recording_more colours)
            Driver (fst by_) (snd by_) [] = (inr found, w, dt)
       /\ subsequence [1; 3] found.
Proof.
split; [reflexivity |].
exact (find_visible_elements_subsequence (B := recording colours)
         (BM := recording_more colours) "id@@colour"
         (recorded colours [] 0 []) (recorded colours [] 40 []) [1; 3] eq_refl).
Defined.

Lemma find_elements_rejected_locator_witness :
  get_by "link@@Home"
  = inl (new_exn Exception
           " Incorrect locator specified . Locator has to be either xpath,id,css,tagname -->link@@Home")
  /\ find_elements (B := recording colours) (BM := recording_more colours)
       "link@@Home" (recorded colours [] 0 [])
     = (Raise (find_elements_error "link@@Home"
                 (new_exn Exception
                    " Incorrect locator specified . Locator has to be either xpath,id,css,tagname -->link@@Home")),
        recorded colours [] 0 [])
  /\ find_visible_elements (B := recording colours) (BM := recording_more colours)
       "link@@Home" (recorded colours [] 0 [])
     = (Raise (new_exn Exception
                 " Incorrect locator specified . Locator has to be either xpath,id,css,tagname -->link@@Home"),
        recorded colours [] 0 [])
  /\ find_child_elements (B := recording colours) (BM := recording_more colours)
       1 "link@@Home" (recorded colours [] 0 [])
     = (Raise (new_exn Exception
                 " Incorrect locator specified . Locator has to be either xpath,id,css,tagname -->link@@Home"),
        recorded colours [] 0 []).
Proof.
split; [reflexivity |].
exact (find_elements_rejected_locator (B := recording colours)
         (BM := recording_more colours) "link@@Home" 1 _
         (recorded colours [] 0 []) eq_refl).
Defined.

(** Of the two options that read "green" the first one is clicked, and
    nothing is clicked for a text that no option carries. *)
Lemma select_dropdown_option_first_match_witness :
  (forall option w, exists dt,
      element_text (B := recording colours) (BrowserMore := recording_more colours)
        option w = (inr (labels colours option), w, dt))
  /\ find_element (B := recording colours) "id@@colour" FIND_TIMEOUT
       (recorded colours [] 0 [])
     = (Return 0, recorded colours [] 10 [])
  /\ element_find_elements_by_tag_name (B := recording colours)
       (BrowserMore := recording_more colours) 0 "option" []
     = (inr [1; 2; 3], [], 10%N)
  /\ select_dropdown_option (B := recording colours) (BM := recording_more colours)
       "id@@colour" "green" (recorded colours [] 0 [])
     = (Return tt, recorded colours [2] 50 [])
  /\ select_dropdown_option (B := recording colours) (BM := recording_more colours)
       "id@@colour" "blue" (recorded colours [] 0 [])
     = (Return tt, recorded colours [] 50 [])
  /\ exists s1 : @state (recording colours),
       browser s1 = [] /\ sleeps s1 = []
       /\ select_dropdown_option (B := recording colours) (BM := recording_more colours)
            "id@@colour" "green" (recorded colours [] 0 [])
          = match find (fun option => String.eqb (labels colours option) "green") [1; 2; 3] with
            | Some option => call (element_click (Browser := recording colours) option) s1
            | None => (Return tt, s1)
            end.
Proof.
assert (Hread : forall option w, exists dt,
           element_text (B := recording colours) (BrowserMore := recording_more colours)
             option w = (inr (labels colours option), w, dt))
  by (intros option w; exists 10%N; reflexivity).
split; [exact Hread |]. split; [reflexivity |]. split; [reflexivity |].
split; [reflexivity |]. split; [reflexivity |].
exact (select_dropdown_option_first_match (B := recording colours)
         (BM := recording_more colours) (labels colours) "id@@colour" "green"
         (recorded colours [] 0 []) (recorded colours [] 10 []) 0 [1; 2; 3] [] 10%N
         Hread eq_refl eq_refl).
Defined.

Lemma wait_till_text_returns_true_witness :
  wait_till_text_is_present_in_element (B := scripted all_fine)
    (BM := scripted_more all_fine) "id@@total" "alu" 2 (start all_fine)
  = (Return true, scripted_state all_fine 2 200 [])
  /\ true = true
  /\ exists element read w w' dt,
       element_text (B := scripted all_fine) (BrowserMore := scripted_more all_fine)
         element w = (inr read, w', dt)
       /\ PyStr.contains "alu" read = true.
Proof.
split; [reflexivity |].
exact (wait_till_text_returns_true (B := scripted all_fine)
         (BM := scripted_more all_fine) "id@@total" "alu" 2 (start all_fine)
         (scripted_state all_fine 2 200 []) true eq_refl).
Defined.

Lemma wait_till_text_first_poll_witness :
  get_by "id@@total" = inr (By.ID, "total")
  /\ find_element_in (Browser := scripted all_fine) Driver By.ID "total" 0
     = (inr 7, 1, 100%N)
  /\ element_text (B := scripted all_fine) (BrowserMore := scripted_more all_fine) 7 1
     = (inr "value", 2, 100%N)
  /\ PyStr.contains "alu" "value" = true
  /\ wait_till_text_is_present_in_element (B := scripted all_fine)
       (BM := scripted_more all_fine) "id@@total" "alu" 2 (start all_fine)
     = (Return true, scripted_state all_fine 2 (0 + (100 + 100)) [])
  /\ wait_till_text_is_present_in_element (B := scripted all_fine)
       (BM := scripted_more all_fine) "id@@total" "" 2 (start all_fine)
     = (Return true, scripted_state all_fine 2 (0 + (100 + 100)) []).
Proof.
split; [reflexivity |]. split; [reflexivity |]. split; [reflexivity |].
split; [reflexivity |].
exact (wait_till_text_first_poll (B := scripted all_fine)
         (BM := scripted_more all_fine) "id@@total" "alu" (By.ID, "total") 2
         (start all_fine) 7 "value" 1 2 100%N 100%N
         eq_refl eq_refl eq_refl eq_refl).
Defined.


(** An [InvalidSelectorException] is a [NoSuchElementException], which the
    wait ignores: the answer is [True]. *)
Example wait_till_element_is_not_visible_invalid_selector :
  isinstance invalid_selector_error NoSuchElementException = true
  /\ wait_till_element_is_not_visible (B := scripted invalid_selector_twice)
       "id@@spinner" 10 (start invalid_selector_twice)
     = (Return true, scripted_state invalid_selector_twice 1 100 []).
Proof. split; reflexivity. Qed.

Lemma find_child_element_retries_stale_witness :
  get_by "css@@li" = inr (By.CSS_SELECTOR, "li")
  /\ find_element_in (Browser := scripted stale_once) (Within 3) By.CSS_SELECTOR "li" 0
     = (inl stale_error, 1, 100%N)
  /\ isinstance stale_error StaleElementReferenceException = true
  /\ find_element_in (Browser := scripted stale_once) (Within 3) By.CSS_SELECTOR "li" 1
     = (inr 7, 2, 100%N)
  /\ find_child_element (B := scripted stale_once) 3 "css@@li" 5 (start stale_once)
     = (Return 7, scripted_state stale_once 2 2200 [2000%N]).
Proof.
split; [reflexivity |]. split; [reflexivity |]. split; [reflexivity |].
split; [reflexivity |].
exact (find_child_element_retries_stale (B := scripted stale_once) 3 7 "css@@li"
         (By.CSS_SELECTOR, "li") 5 (start stale_once) stale_error 1 2 100%N 100%N
         eq_refl eq_refl eq_refl eq_refl).
Defined.

Lemma get_attribute_retries_stale_witness :
  element_get_attribute (Browser := scripted stale_once) 7 "href" 0
  = (inl stale_error, 1, 100%N)
  /\ isinstance stale_error StaleElementReferenceException = true
  /\ element_get_attribute (Browser := scripted stale_once) 7 "href" 1
     = (inr (Some "value"), 2, 100%N)
  /\ get_attribute (B := scripted stale_once) (inl 7) "href" (start stale_once)
     = (Return (Some "value"), scripted_state stale_once 2 2200 [2000%N]).
Proof.
split; [reflexivity |]. split; [reflexivity |]. split; [reflexivity |].
exact (get_attribute_retries_stale (B := scripted stale_once) 7 "href"
         (start stale_once) stale_error (Some "value") 1 2 100%N 100%N
         eq_refl eq_refl eq_refl).
Defined.


(** ** The driver factory *)

Module DriverFactoryFacts.
Import DriverFactory.

Section FactoryFacts.
Context {L : WebDriverLib}.

Lemma local_launch_none (browser : string) :
  ~ In (lower browser) local_names -> local_launch browser = None.
Proof.
intros H. unfold local_launch, local_names in *. cbn [In BrowserType_value] in *.
repeat match goal with
       | |- context [String.eqb (lower browser) ?x] =>
           destruct (String.eqb_spec (lower browser) x) as [E|_];
           [exfalso; apply H; rewrite E; tauto |]
       end.
reflexivity.
Qed.

(** X18. An ASCII browser name that, in lower case, is none of [ff], [firefox],
    [ie], [chrome], [opera] and [safari] starts no driver: [_run_local]
    raises [AttributeError] for the missing [maximize_window] of [None] and
    leaves the machine as it was. [chrome_remote], a member of
    [BrowserType], is such a name, so [get_web_driver] without the remote
    flag fails for it. *)
Theorem run_local_unknown_browser (self : factory) (remote_url : option string)
    (desired_caps : option Caps) (m : Machine) :
  isascii (_browser self) = true ->
  ~ In (lower (_browser self)) local_names ->
  _run_local (_browser self) m = (inl (none_has_no "maximize_window"), m)
  /\ get_web_driver self false remote_url desired_caps m
     = (inl (none_has_no "maximize_window"), m)
  /\ _run_local (BrowserType_value CHROME_REMOTE) m
     = (inl (none_has_no "maximize_window"), m).
Proof.
intros _ H. unfold get_web_driver, _run_local.
rewrite (local_launch_none _ H). repeat split.
Qed.

(** X19. A driver that [_run_local] returns was started by one of the five
    local constructors, never by [Remote], and its window was maximized
    after the start; the machine is left as the maximizing left it. *)
Theorem run_local_returns_maximized (browser : string) (m m' : Machine)
    (d : WebDriver) :
  _run_local browser m = (inr d, m') ->
  exists (l : launch Caps) (m1 : Machine),
    local_launch browser = Some l
    /\ is_local l = true
    /\ start_driver l m = (inr d, m1)
    /\ maximize_window d m1 = (inr tt, m').
Proof.
unfold _run_local. destruct (local_launch browser) as [l|] eqn:El; [| discriminate].
destruct (start_driver l m) as [[e|d0] m1] eqn:Es; [discriminate |].
destruct (maximize_window d0 m1) as [[e|[]] m2] eqn:Em; [discriminate |].
intros [= <- <-]. exists l, m1. split; [reflexivity |].
split; [| split; assumption].
unfold local_launch in El.
repeat match type of El with
       | (if ?c then _ else _) = _ => destruct c
       end; try discriminate El; injection El as <-; reflexivity.
Qed.

End FactoryFacts.

Lemma run_local_unknown_browser_witness :
  isascii "Edge" = true
  /\ ~ In (lower "Edge") local_names
  /\ _run_local (L := logging_lib) "Edge" [] = (inl (none_has_no "maximize_window"), [])
  /\ get_web_driver (L := logging_lib) (mkFactory "Edge" None None) false None None []
     = (inl (none_has_no "maximize_window"), [])
  /\ _run_local (L := logging_lib) (BrowserType_value CHROME_REMOTE) []
     = (inl (none_has_no "maximize_window"), []).
Proof.
assert (H : ~ In (lower "Edge") local_names).
{ cbn. intros [H | [H | [H | [H | [H | [H | []]]]]]]; discriminate H. }
split; [reflexivity |]. split; [exact H |].
exact (run_local_unknown_browser (L := logging_lib) (mkFactory "Edge" None None)
         None None [] eq_refl H).
Defined.

Lemma run_local_returns_maximized_witness :
  _run_local (L := logging_lib) "Chrome" [] 
  = (inr 0,
     [Started (Chrome "c:\chromedriver.exe"
                 ["--disable-infobars"; "--use-fake-device-for-media-stream";
                  "--use-fake-ui-for-media-stream"]);
      Maximized 0])
  /\ exists (l : launch unit) (m1 : list machine_event),
       local_launch (L := logging_lib) "Chrome" = Some l
       /\ is_local (L := logging_lib) l = true
       /\ start_driver (WebDriverLib := logging_lib) l [] = (inr 0, m1)
       /\ maximize_window (WebDriverLib := logging_lib) 0 m1
          = (inr tt,
             [Started (Chrome "c:\chromedriver.exe"
                         ["--disable-infobars"; "--use-fake-device-for-media-stream";
                          "--use-fake-ui-for-media-stream"]);
              Maximized 0]).
Proof.
split; [reflexivity |].
exact (run_local_returns_maximized (L := logging_lib) "Chrome" [] _ 0 eq_refl).
Defined.

End DriverFactoryFacts.

